(** * sublime-ycmd: response schema and file-system utilities

    A shallow embedding of [lib/schema/completions.py] and [lib/util/fs.py].

    Conventions of the embedding.
    - Python values that travel through the parser are the inductive
      [value]; a [dict] with string keys is a [gmap string value].
    - A call either returns or raises, and may emit log records on the way:
      [Py A] is a writer of log records over [exn + A].  Records of level
      WARNING and ERROR are kept, [logger.debug] calls are not.
    - Every exception modelled derives from [Exception]; an exception value
      carries its class name and the names of its base classes, so that an
      [except C] clause is a test on those names.
    - Characters are 8-bit code points, strings are [string].
    - What the modules take from the interpreter's library ([re.match],
      [str.split], [posixpath.join], ...) is written out for the fragment
      that is used; what they take from the platform or from modules that are
      not part of these sources is a parameter. *)

From Stdlib Require Import ZArith QArith Ascii String Permutation.
From stdpp Require Import base option list gmap strings pretty.

#[local] Set Warnings "-register-all".
#[local] Open Scope string_scope.
#[local] Open Scope list_scope.

(** ** Python values *)

Inductive value : Type :=
  | VNone
  | VBool (b : bool)
  | VInt (z : Z)
  | VFloat (q : Q)
  | VStr (s : string)
  | VBytes (b : string)
  | VList (l : list value)
  | VTuple (l : list value)
  | VDict (d : gmap string value).

(** [bool(v)]: the truth value used by [if v], [not v], [a and b]. *)
Definition truthy (v : value) : bool :=
  match v with
  | VNone => false
  | VBool b => b
  | VInt z => negb (Z.eqb z 0)
  | VFloat q => negb (Z.eqb (Qnum q) 0)
  | VStr s => negb (String.eqb s "")
  | VBytes b => negb (String.eqb b "")
  | VList l => negb (Nat.eqb (length l) 0)
  | VTuple l => negb (Nat.eqb (length l) 0)
  | VDict d => negb (Nat.eqb (size d) 0)
  end.

Definition is_none (v : value) : bool :=
  match v with VNone => true | _ => false end.

Definition is_str (v : value) : bool :=
  match v with VStr _ => true | _ => false end.

Definition is_bytes (v : value) : bool :=
  match v with VBytes _ => true | _ => false end.

Definition is_dict (v : value) : bool :=
  match v with VDict _ => true | _ => false end.

Definition is_list (v : value) : bool :=
  match v with VList _ => true | _ => false end.

Definition is_tuple (v : value) : bool :=
  match v with VTuple _ => true | _ => false end.

(** [v == s] for a string literal [s]: only a [str] equals a [str]. *)
Definition eq_str (v : value) (s : string) : bool :=
  match v with VStr s' => String.eqb s' s | _ => false end.

(** [d.get(key, None)] *)
Definition dict_get (d : gmap string value) (key : string) : value :=
  default VNone (d !! key).

(** ** Exceptions, log records and the monad of calls *)

Record exn : Type := Exn {
  exn_class : string;
  exn_bases : list string;
  exn_text : string
}.

Definition ValueError (text : string) : exn :=
  Exn "ValueError" [] text.
Definition TypeError (text : string) : exn :=
  Exn "TypeError" [] text.
Definition NotImplementedError (text : string) : exn :=
  Exn "NotImplementedError" ["RuntimeError"] text.
Definition AssertionError (text : string) : exn :=
  Exn "AssertionError" [] text.
Definition KeyError (text : string) : exn :=
  Exn "KeyError" ["LookupError"] text.
Definition AttributeError (text : string) : exn :=
  Exn "AttributeError" [] text.

(** [isinstance(e, C)] for an exception class named [c] below [Exception]. *)
Definition exn_isinstance (e : exn) (c : string) : bool :=
  String.eqb (exn_class e) c || existsb (String.eqb c) (exn_bases e).

Inductive level : Type := WARNING | ERROR.

Record record : Type := LogRecord {
  rec_level : level;
  rec_text : string;
  rec_exn : option exn
}.

Definition Py (A : Type) : Type := list record * (exn + A).

Definition py_ret {A} (a : A) : Py A := ([], inr a).
Definition raise {A} (e : exn) : Py A := ([], inl e).
Definition log (lv : level) (text : string) (e : option exn) : Py unit :=
  ([LogRecord lv text e], inr tt).

Definition py_bind {A B} (m : Py A) (k : A → Py B) : Py B :=
  match m with
  | (l, inl e) => (l, inl e)
  | (l, inr a) => let '(l', r) := k a in (l ++ l', r)
  end.

#[global] Instance Py_ret : MRet Py := @py_ret.
#[global] Instance Py_bind : MBind Py := λ A B k m, py_bind m k.

(** [assert cond, text] *)
Definition py_assert (cond : bool) (text : string) : Py unit :=
  if cond then mret tt else raise (AssertionError text).

(** [for x in xs: ys.append(f(x))], stopping at the first exception. *)
Fixpoint py_for {A B} (f : A → Py B) (xs : list A) : Py (list B) :=
  match xs with
  | [] => mret []
  | x :: xs' => y ← f x; ys ← py_for f xs'; mret (y :: ys)
  end.

(** ** Strings *)

Definition newline : ascii := "010"%char.

(** [str.isspace] on one code point below 256. *)
Definition isspace (c : ascii) : bool :=
  let n := nat_of_ascii c in
  (((9 <=? n) && (n <=? 13)) || ((28 <=? n) && (n <=? 32))
   || (n =? 133) || (n =? 160))%nat.

(** [c.lower()] on one code point below 256. *)
Definition lower_char (c : ascii) : ascii :=
  let n := nat_of_ascii c in
  if (((65 <=? n) && (n <=? 90))
      || ((192 <=? n) && (n <=? 222) && negb (n =? 215)))%nat
  then ascii_of_nat (n + 32) else c.

(** [s.lower()] *)
Fixpoint lower (s : string) : string :=
  match s with
  | EmptyString => EmptyString
  | String c s' => String (lower_char c) (lower s')
  end.

(** [b.lower()] for [bytes]: only the ASCII capitals change. *)
Fixpoint lower_bytes (b : string) : string :=
  match b with
  | EmptyString => EmptyString
  | String c b' =>
      let n := nat_of_ascii c in
      String (if ((65 <=? n) && (n <=? 90))%nat then ascii_of_nat (n + 32)
              else c)
        (lower_bytes b')
  end.

(** [s.startswith(p)] *)
Definition startswith (s p : string) : bool := String.prefix p s.

(** [sub in s] for two strings. *)
Fixpoint contains (sub s : string) : bool :=
  String.prefix sub s ||
  match s with
  | EmptyString => false
  | String _ s' => contains sub s'
  end.

(** [c in s] for one character. *)
Fixpoint occurs (c : ascii) (s : string) : bool :=
  match s with
  | EmptyString => false
  | String c' s' => Ascii.eqb c' c || occurs c s'
  end.

(** [s.split(sep)] for a separator of one character. *)
Fixpoint split (sep : ascii) (s : string) : list string :=
  match s with
  | EmptyString => [EmptyString]
  | String c s' =>
      if Ascii.eqb c sep then EmptyString :: split sep s'
      else match split sep s' with
           | [] => [String c EmptyString]
           | w :: ws => String c w :: ws
           end
  end.

(** [s.lstrip()], [s.rstrip()], [s.strip()] *)
Fixpoint lstrip (s : string) : string :=
  match s with
  | EmptyString => EmptyString
  | String c s' => if isspace c then lstrip s' else s
  end.

Fixpoint rstrip (s : string) : string :=
  match s with
  | EmptyString => EmptyString
  | String c s' =>
      match rstrip s' with
      | EmptyString => if isspace c then EmptyString else String c EmptyString
      | r => String c r
      end
  end.

Definition strip (s : string) : string := rstrip (lstrip s).

(** [sep.join(l)] *)
Definition join (sep : string) (l : list string) : string :=
  String.concat sep l.

(** [s] between double quotes, the character of code 34. *)
Definition quoted (s : string) : string :=
  String "034" (s +:+ String "034" "").

(** [str(n)] for a non-negative [int]. *)
Definition str_of_nat (n : nat) : string := pretty n.

(** [s[:n]] and [s[n:]] for [0 <= n]. *)
Fixpoint str_take (n : nat) (s : string) : string :=
  match n, s with
  | S n', String c s' => String c (str_take n' s')
  | _, _ => EmptyString
  end.

Fixpoint str_drop (n : nat) (s : string) : string :=
  match n, s with
  | S n', String _ s' => str_drop n' s'
  | _, _ => s
  end.

(** ** The fragment of [re] used by the module

    Patterns are matched by backtracking, greedy quantifiers trying the
    longest repetition first.  [re_run r s caps k] matches [r] at the start
    of [s] and hands what is left of [s], and the groups closed so far, to
    the continuation [k]; [None] makes the matcher backtrack. *)

Inductive regex : Type :=
  | Chr (c : ascii)            (* a literal character, escaped or not *)
  | AnyStar                    (* .* *)
  | AnyPlus                    (* .+ *)
  | Grp (r : regex)            (* ( r ) *)
  | Cat (r1 r2 : regex).

Fixpoint any_star {A} (k : string → option A) (s : string) : option A :=
  match s with
  | EmptyString => k s
  | String c s' =>
      if Ascii.eqb c newline then k s
      else match any_star k s' with
           | Some a => Some a
           | None => k s
           end
  end.

Fixpoint re_run {A} (r : regex) (s : string) (caps : list string)
    (k : string → list string → option A) : option A :=
  match r with
  | Chr c =>
      match s with
      | String c' s' => if Ascii.eqb c' c then k s' caps else None
      | EmptyString => None
      end
  | AnyStar => any_star (λ s', k s' caps) s
  | AnyPlus =>
      match s with
      | String c s' =>
          if Ascii.eqb c newline then None
          else any_star (λ s', k s' caps) s'
      | EmptyString => None
      end
  | Grp r' =>
      re_run r' s caps
        (λ s' caps',
           k s' (caps' ++ [str_take (String.length s - String.length s') s]))
  | Cat r1 r2 => re_run r1 s caps (λ s' caps', re_run r2 s' caps' k)
  end.

(** [re.match(r, s)]; a match is represented by its [groups()]. *)
Definition re_match (r : regex) (s : string) : option (list string) :=
  re_run r s [] (λ _ caps, Some caps).

(** [r".*\(.*\)"] *)
Definition re_call : regex :=
  Cat AnyStar (Cat (Chr "(") (Cat AnyStar (Chr ")"))).

(** [r".*\((.+)\)"] *)
Definition re_call_params : regex :=
  Cat AnyStar (Cat (Chr "(") (Cat (Grp AnyPlus) (Chr ")"))).

(** The pattern of the characters of [s], one after the other, then [r]. *)
Fixpoint re_lit (s : string) (r : regex) : regex :=
  match s with
  | EmptyString => r
  | String c s' => Cat (Chr c) (re_lit s' r)
  end.

(** [re.search(r, s)]: the match at the first position of [s], from the
    left, that has one. *)
Fixpoint re_search (r : regex) (s : string) : option (list string) :=
  match re_match r s with
  | Some groups => Some groups
  | None =>
      match s with
      | EmptyString => None
      | String _ s' => re_search r s'
      end
  end.

(** The pattern of [unknown_extra_conf_path]: the text "Found ", a group
    of any characters, greedy, then the text ". Load?". *)
Definition re_found : regex :=
  re_lit "Found " (Cat (Grp AnyStar) (re_lit ". Load" (Chr "?"))).

(** ** [lib/schema/completions.py] *)

(** [str(v)]: a [str] is itself; the text of any other value is the
    interpreter's, taken as the parameter [repr]. *)
Definition py_str (repr : value → string) (v : value) : string :=
  match v with VStr s => s | _ => repr v end.

(** [s in container] for a string [s]. *)
Definition py_in (s : string) (container : value) : Py bool :=
  match container with
  | VStr t => mret (contains s t)
  | VList l | VTuple l => mret (existsb (λ v, eq_str v s) l)
  | VDict d => mret (bool_decide (is_Some (d !! s)))
  | VBytes _ => raise (TypeError "a bytes-like object is required, not 'str'")
  | _ => raise (TypeError "argument is not iterable")
  end.

(** [for x in v]: the validation of the reply lets only lists reach an
    iteration of this module. *)
Definition py_iter (v : value) : Py (list value) :=
  match v with
  | VList l | VTuple l => mret l
  | _ => raise (TypeError "object is not iterable")
  end.

(** [try: m except Exception as e: h e] *)
Definition py_try {A} (m : Py A) (h : exn → Py A) : Py A :=
  match m with
  | (l, inl e) => let '(l', r) := h e in (l ++ l', r)
  | (l, inr a) => (l, inr a)
  end.

Definition SHORTDESC_UNKNOWN : string := "?".
Definition SHORTDESC_KEYWORD : string := "keywd".
Definition SHORTDESC_IDENTIFIER : string := "ident".
Definition SHORTDESC_VARIABLE : string := "var".
Definition SHORTDESC_FUNCTION : string := "fn".
Definition SHORTDESC_DEFINITION : string := "defn".
Definition SHORTDESC_ATTRIBUTE : string := "attr".
Definition SHORTDESC_MODULE : string := "mod".
Definition SHORTDESC_MACRO : string := "macro".
Definition SHORTDESC_TYPE_CLASS : string := "class".
Definition SHORTDESC_TYPE_STRING : string := "str".
Definition SHORTDESC_TYPE_NUMBER : string := "num".

Definition _shortdesc_common (repr : value → string) (menu_info kind : value)
    : Py value :=
  py_assert (is_none menu_info || is_str menu_info)
    "[internal] menu info is not a str: %r";;
  if negb (truthy menu_info) && negb (truthy kind) then
    mret (VStr SHORTDESC_UNKNOWN)
  else if truthy menu_info && eq_str menu_info "[ID]" then
    mret (VStr SHORTDESC_IDENTIFIER)
  else if truthy kind then
    if String.eqb (lower (py_str repr kind)) "class" then
      mret (VStr SHORTDESC_TYPE_CLASS)
    else if String.eqb (lower (py_str repr kind)) "macro" then
      mret (VStr SHORTDESC_MACRO)
    else mret VNone
  else mret VNone.

Definition _shortdesc_cpp (menu_info kind : value) : Py value :=
  if negb (truthy kind) then mret (VStr "[ID]")
  else match kind with
       | VStr s => mret (VStr (lower s))
       | VBytes b => mret (VBytes (lower_bytes b))
       | _ => raise (AttributeError "object has no attribute 'lower'")
       end.

Definition _shortdesc_python (menu_info kind : value) : Py value :=
  match menu_info with
  | VStr menu_info =>
      if contains " = " menu_info || startswith menu_info "instance" then
        mret (VStr SHORTDESC_ATTRIBUTE)
      else if startswith menu_info "keyword" then
        mret (VStr SHORTDESC_KEYWORD)
      else if startswith menu_info "def" then
        mret (VStr SHORTDESC_FUNCTION)
      else if startswith menu_info "module" then
        mret (VStr SHORTDESC_MODULE)
      else if startswith menu_info "class" then
        mret (VStr SHORTDESC_TYPE_CLASS)
      else mret VNone
  | _ => raise (AssertionError "[internal] menu info is not a str: %r")
  end.

Definition _shortdesc_javascript (menu_info kind : value) : Py value :=
  match menu_info with
  | VStr menu_info =>
      if String.eqb menu_info "?" then mret (VStr SHORTDESC_UNKNOWN)
      else if startswith menu_info "fn" then mret (VStr SHORTDESC_FUNCTION)
      else if String.eqb menu_info "string" then
        mret (VStr SHORTDESC_TYPE_STRING)
      else if String.eqb menu_info "number" then
        mret (VStr SHORTDESC_TYPE_NUMBER)
      else mret VNone
  | _ => raise (AssertionError "[internal] menu info is not a str: %r")
  end.

(** The table of language handlers of [shortdesc], in the order in which
    the source writes it.  The source iterates a [dict], whose order it
    calls non-deterministic: [shortdesc] below takes the iteration order. *)
Definition shortdesc_handlers : list (string * (value → value → Py value)) :=
  [ ("cpp", _shortdesc_cpp);
    ("python", _shortdesc_python);
    ("javascript", _shortdesc_javascript) ].

Module CompletionOption.

Record t : Type := new {
  _menu_info : value;
  _insertion_text : value;
  _extra_data : value;
  _detailed_info : value;
  _file_types : value;
  _menu_text : value;
  _kind : value
}.

Definition _has_file_type (self : t) (file_type : string) : Py bool :=
  (if is_none (_file_types self) then
     log WARNING "completion option has no associated file types" None
   else mret tt);;
  if negb (truthy (_file_types self)) then mret false
  else py_in file_type (_file_types self).

(** The loop of [shortdesc] over the handlers; [Some v] when the loop
    returns [v], [None] when it runs to its end. *)
Fixpoint shortdesc_loop (self : t)
    (handlers : list (string * (value → value → Py value)))
    : Py (option value) :=
  match handlers with
  | [] => mret None
  | (file_type, shortdesc_handler) :: rest =>
      has ← _has_file_type self file_type;
      if has : bool then
        shortdesc ← shortdesc_handler (_menu_info self) (_kind self);
        if negb (is_none shortdesc) then mret (Some shortdesc)
        else shortdesc_loop self rest
      else shortdesc_loop self rest
  end.

Definition shortdesc (repr : value → string)
    (order : list (string * (value → value → Py value))) (self : t)
    : Py value :=
  let menu_info := _menu_info self in
  shortdesc ← _shortdesc_common repr menu_info (_kind self);
  if negb (is_none shortdesc) then mret shortdesc
  else
    found ← shortdesc_loop self order;
    match found with
    | Some shortdesc => mret shortdesc
    | None => mret menu_info
    end.

(** The loop of [text] over the parameters, [count] being its counter. *)
Fixpoint text_params (count : nat) (params : list string) : list string :=
  match params with
  | [] => []
  | param :: rest =>
      ("${" +:+ str_of_nat count +:+ ":" +:+ strip param +:+ "}")
        :: text_params (S count) rest
  end.

Definition text (self : t) : Py value :=
  '(is_func, param_list) ←
    (if truthy (_menu_text self) then
       match _menu_text self with
       | VStr menu_text =>
           let is_func := bool_decide (is_Some (re_match re_call menu_text)) in
           let param_list :=
             match re_match re_call_params menu_text with
             | Some (group0 :: _) => text_params 1 (split "," group0)
             | _ => []
             end in
           mret (is_func, param_list)
       | _ => raise (TypeError "expected string or bytes-like object")
       end
     else mret (false, []));
  if negb (truthy (_insertion_text self)) then
    log ERROR "completion option is not initialized" None;;
    mret (VStr "")
  else if is_func : bool then
    match _insertion_text self with
    | VStr insertion_text =>
        mret (VStr (insertion_text +:+ "(" +:+ join ", " param_list +:+ ")"))
    | _ => raise (TypeError "unsupported operand type(s) for +")
    end
  else mret (_insertion_text self).

End CompletionOption.

Module DiagnosticError.

Definition UNKNOWN_EXTRA_CONF : string := "UnknownExtraConf".
Definition RUNTIME_ERROR : string := "RuntimeError".

Record t : Type := new {
  _exception_type : value;
  _message : value;
  _traceback : value;
  _file_types : value
}.

Definition is_unknown_extra_conf (self : t) : bool :=
  eq_str (_exception_type self) UNKNOWN_EXTRA_CONF.

Definition is_runtime_error (self : t) : bool :=
  eq_str (_exception_type self) RUNTIME_ERROR.

Definition unknown_extra_conf_path (self : t) : Py value :=
  py_assert (is_unknown_extra_conf self) "diagnostic type must be %s: %s";;
  if negb (truthy (_message self)) then
    log WARNING
      ("failed to get unknown extra conf path, "
       +:+ "no error message available") None;;
    mret VNone
  else
    match _message self with
    | VStr message =>
        match re_search re_found message with
        | Some (group1 :: _) => mret (VStr group1)
        | _ => mret VNone
        end
    | _ => raise (TypeError "expected string or bytes-like object")
    end.

(** [return self._message and 'no compile flags' in self._message] *)
Definition is_compile_flag_missing_error (self : t) : Py value :=
  py_assert (is_runtime_error self) "diagnostic type must be %s: %s";;
  if truthy (_message self) then
    found ← py_in "no compile flags" (_message self);
    mret (VBool found)
  else mret (_message self).

End DiagnosticError.

Module Completions.

Record t : Type := new {
  _completion_options : option (list CompletionOption.t);
  _start_column : value
}.

(** [__len__] *)
Definition len (self : t) : nat :=
  match _completion_options self with
  | None => 0
  | Some options => length options
  end.

(** [__getitem__] for an index from 0 on; [None] stands for [IndexError]. *)
Definition getitem (self : t) (key : nat) : option CompletionOption.t :=
  match _completion_options self with
  | None => None
  | Some options => options !! key
  end.

(** [__iter__]: [iter(self._completion_options)] *)
Definition iter (self : t) : Py (list CompletionOption.t) :=
  match _completion_options self with
  | Some options => mret options
  | None => raise (TypeError "'NoneType' object is not iterable")
  end.

End Completions.

Module Diagnostics.

Record t : Type := new {
  _diagnostics : option (list DiagnosticError.t)
}.

(** [__len__] *)
Definition len (self : t) : nat :=
  match _diagnostics self with
  | None => 0
  | Some diagnostics => length diagnostics
  end.

(** [__iter__]: without diagnostics the method returns [None], which
    [iter()] refuses. *)
Definition iter (self : t) : Py (list DiagnosticError.t) :=
  match _diagnostics self with
  | Some (diagnostic :: diagnostics) => mret (diagnostic :: diagnostics)
  | _ => raise (TypeError "iter() returned non-iterator of type 'NoneType'")
  end.

End Diagnostics.

Module CompletionResponse.

Record t : Type := new {
  completions : option Completions.t;
  diagnostics : option Diagnostics.t
}.

End CompletionResponse.

(** Modelled from the spec: the request parameters, the context that
    carries the language tags of the originating file (their class is of
    [lib/schema/request.py], which is not among the sources).  What the
    parsers read of an instance is its truth value and its [file_types]
    attribute, and both are left free. *)
Record RequestParameters : Type := {
  rp_truth : bool;
  file_types : value
}.

(** The argument [request_parameters]: [None], an instance of
    [RequestParameters], or an object of another class. *)
Inductive context : Type :=
  | CtxNone
  | CtxParameters (rp : RequestParameters)
  | CtxOther.

(** [request_parameters is not None and not isinstance(request_parameters,
    RequestParameters)] raises. *)
Definition check_request_parameters (request_parameters : context) : Py unit :=
  match request_parameters with
  | CtxOther =>
      raise (TypeError "request parameters must be RequestParameters: %r")
  | _ => mret tt
  end.

(** [request_parameters.file_types if request_parameters else None], after
    the check above. *)
Definition context_file_types (request_parameters : context) : value :=
  match request_parameters with
  | CtxParameters rp => if rp_truth rp then file_types rp else VNone
  | _ => VNone
  end.

Definition is_file_types (file_types : value) : bool :=
  is_none file_types || is_tuple file_types || is_list file_types.

Section parser.

(** [json_parse] of [lib/util/format.py], which is not part of these
    sources: any function from a [str] or [bytes] to a value, an exception
    and log records. *)
Variable json_parse : value → Py value.

Definition _is_error_list (errors : value) : bool :=
  match errors with
  | VList l => forallb is_dict l
  | _ => false
  end.

Definition _is_completions (completions : value) : bool :=
  match completions with
  | VList l => forallb is_dict l
  | _ => false
  end.

Definition _parse_json_response (json : value) (ignore_errors : bool)
    : Py (gmap string value) :=
  if negb (is_str json || is_bytes json || is_dict json) then
    raise (TypeError "json must be a str or dict: %r")
  else
    parsed_json ←
      (if is_str json || is_bytes json then json_parse json
       else mret json (* json.copy() *));
    match parsed_json with
    | VDict parsed_json =>
        (if negb ignore_errors then
           match parsed_json !! "errors" with
           | None =>
               raise (ValueError
                        ("json is missing " +:+ quoted "errors" +:+ " list"))
           | Some errors =>
               if negb (_is_error_list errors) then
                 raise (ValueError
                          ("json is missing " +:+ quoted "errors" +:+ " list"))
               else mret tt
           end
         else mret tt);;
        match parsed_json !! "completions" with
        | None =>
            raise (ValueError
                     ("json is missing " +:+ quoted "completions" +:+ " list"))
        | Some completions =>
            if negb (_is_completions completions) then
              raise (ValueError
                       ("json is missing " +:+ quoted "completions"
                        +:+ " list"))
            else mret parsed_json
        end
    | _ => raise (AssertionError "[internal] parsed json is not a dict: %r")
    end.

(** [d[key]] *)
Definition dict_getitem (d : gmap string value) (key : string) : Py value :=
  match d !! key with
  | Some v => mret v
  | None => raise (KeyError key)
  end.

Definition _parse_completion_option (node : value) (file_types : value)
    : Py CompletionOption.t :=
  match node with
  | VDict node =>
      py_assert (is_file_types file_types) "file types must be a list: %r";;
      let menu_info := dict_get node "extra_menu_info" in
      let insertion_text := dict_get node "insertion_text" in
      let extra_data := dict_get node "extra_data" in
      let detailed_info := dict_get node "detailed_info" in
      let menu_text := dict_get node "menu_text" in
      let kind := dict_get node "kind" in
      mret (CompletionOption.new menu_info insertion_text extra_data
              detailed_info file_types menu_text kind)
  | _ => raise (AssertionError "completion node must be a dict: %r")
  end.

Definition parse_compoptions (json : value) (request_parameters : context)
    : Py Completions.t :=
  json ← _parse_json_response json true;
  check_request_parameters request_parameters;;
  json_completions ← dict_getitem json "completions";
  json_start_column ← dict_getitem json "completion_start_column";
  let file_types := context_file_types request_parameters in
  py_assert (is_file_types file_types)
    "[internal] file types is not a list: %r";;
  nodes ← py_iter json_completions;
  completion_options ←
    py_for (λ o, _parse_completion_option o file_types) nodes;
  let start_column := json_start_column in
  mret (Completions.new (Some completion_options) start_column).

Definition _parse_diagnostic (node : value) (file_types : value)
    : Py DiagnosticError.t :=
  match node with
  | VDict node =>
      py_assert (is_file_types file_types) "file types must be a list: %r";;
      let message := dict_get node "message" in
      let exc := dict_get node "exception" in
      exception_type ←
        (if truthy exc then
           match exc with
           | VDict exc => mret (dict_get exc "TYPE")
           | _ => raise (AttributeError "object has no attribute 'get'")
           end
         else mret VNone);
      let traceback := dict_get node "traceback" in
      if truthy exception_type then
        mret (DiagnosticError.new exception_type message traceback VNone)
      else
        raise (NotImplementedError
                 "unimplemented: diagnostic does not have exception type")
  | _ => raise (AssertionError "diagnostic node must be a dict: %r")
  end.

(** The three [except] clauses of [_try_parse_diagnostic]. *)
Definition _try_parse_diagnostic (file_types : value) (node : value)
    : Py (option DiagnosticError.t) :=
  py_try (parsed ← _parse_diagnostic node file_types; mret (Some parsed))
    (λ e,
       (if exn_isinstance e "ValueError" then
          log WARNING "diagnostic has unexpected format: %r" (Some e)
        else if exn_isinstance e "NotImplementedError" then
          log WARNING "unhandled diagnostic format: %r" (Some e)
        else
          log ERROR "error while parsing diagnostic: %r" (Some e));;
       mret None).

(** [list(_iter_diagnostics())]; an instance of [DiagnosticError] is
    always true, so that [if parsed] only drops the [None]s. *)
Fixpoint _iter_diagnostics (file_types : value) (json_errors : list value)
    : Py (list DiagnosticError.t) :=
  match json_errors with
  | [] => mret []
  | node :: rest =>
      parsed ← _try_parse_diagnostic file_types node;
      later ← _iter_diagnostics file_types rest;
      mret (match parsed with
            | Some parsed => parsed :: later
            | None => later
            end)
  end.

Definition parse_diagnostics (json : value) (request_parameters : context)
    : Py Diagnostics.t :=
  json ← _parse_json_response json false;
  check_request_parameters request_parameters;;
  let json_errors := default (VList []) (json !! "errors") in
  let file_types := context_file_types request_parameters in
  py_assert (is_file_types file_types)
    "[internal] file types is not a list: %r";;
  if negb (truthy json_errors) then
    mret (Diagnostics.new None)
  else
    nodes ← py_iter json_errors;
    diagnostics ← _iter_diagnostics file_types nodes;
    mret (Diagnostics.new (Some diagnostics)).

(** The three [except] clauses of [_attempt_parse]. *)
Definition _attempt_parse {A} (parser : Py A) : Py (option A) :=
  py_try (parsed ← parser; mret (Some parsed))
    (λ e,
       (if exn_isinstance e "ValueError" then
          log WARNING "response has unexpected format: %r" (Some e)
        else if exn_isinstance e "NotImplementedError" then
          log WARNING "unhandled response format: %r" (Some e)
        else
          log ERROR "error while parsing response: %r" (Some e));;
       mret None).

Definition parse_completions (json : value) (request_parameters : context)
    : Py CompletionResponse.t :=
  completions ← _attempt_parse (parse_compoptions json request_parameters);
  diagnostics ← _attempt_parse (parse_diagnostics json request_parameters);
  mret (CompletionResponse.new completions diagnostics).

End parser.

(** ** [lib/util/fs.py] *)

(** [s.endswith(c)] for one character. *)
Fixpoint endswith (s : string) (c : ascii) : bool :=
  match s with
  | EmptyString => false
  | String c' EmptyString => Ascii.eqb c' c
  | String _ s' => endswith s' c
  end.

(** [s.find(c)] and [s.rfind(c)] for one character: an index, or -1. *)
Fixpoint find (c : ascii) (s : string) : Z :=
  match s with
  | EmptyString => -1
  | String c' s' =>
      if Ascii.eqb c' c then 0
      else let r := find c s' in if (0 <=? r)%Z then (r + 1)%Z else -1
  end.

Fixpoint rfind (c : ascii) (s : string) : Z :=
  match s with
  | EmptyString => -1
  | String c' s' =>
      let r := rfind c s' in
      if (0 <=? r)%Z then (r + 1)%Z
      else if Ascii.eqb c' c then 0 else -1
  end.

(** [c * n] *)
Fixpoint str_repeat (c : ascii) (n : nat) : string :=
  match n with
  | O => EmptyString
  | S n' => String c (str_repeat c n')
  end.

(** [s.rstrip(c)] for one character. *)
Fixpoint rstrip_char (c : ascii) (s : string) : string :=
  match s with
  | EmptyString => EmptyString
  | String c' s' =>
      match rstrip_char c s' with
      | EmptyString =>
          if Ascii.eqb c' c then EmptyString else String c' EmptyString
      | r => String c' r
      end
  end.

(** The functions of [posixpath] that the module calls. *)
Module posixpath.

Definition sep : ascii := "/"%char.

Definition isabs (s : string) : bool := startswith s "/".

(** The loop of [join] over its arguments [p] after the first. *)
Fixpoint join_loop (path : string) (p : list string) : string :=
  match p with
  | [] => path
  | b :: rest =>
      join_loop
        (if startswith b "/" then b
         else if String.eqb path "" || endswith path sep then path +:+ b
         else path +:+ "/" +:+ b)
        rest
  end.

Definition join (a : string) (p : list string) : string := join_loop a p.

Definition split (p : string) : string * string :=
  let i := Z.to_nat (rfind sep p + 1) in
  let head := str_take i p in
  let tail := str_drop i p in
  let head :=
    if negb (String.eqb head "")
       && negb (String.eqb head (str_repeat sep (String.length head)))
    then rstrip_char sep head else head in
  (head, tail).

End posixpath.

(** What the module reads of [os] and [os.path]. *)
Record Platform : Type := {
  os_name : string;
  os_sep : ascii;
  os_altsep : option ascii;
  os_pathsep : ascii;
  os_curdir : string;
  os_path_isabs : string → bool;
  os_path_join : string → list string → string;
  os_path_split : string → string * string
}.

Definition posix : Platform := {|
  os_name := "posix";
  os_sep := posixpath.sep;
  os_altsep := None;
  os_pathsep := ":"%char;
  os_curdir := ".";
  os_path_isabs := posixpath.isabs;
  os_path_join := posixpath.join;
  os_path_split := posixpath.split
|}.

(** What the module reads of the process and of the file system. *)
Record Environment : Type := {
  os_getcwd : string;
  os_getenv_PATH : option string;
  regular_file : string → bool
}.

(** [os.path.isfile(path)]: [os.stat] refuses [None] with a [TypeError],
    which [isfile] does not catch (it catches [OSError] and [ValueError]). *)
Definition os_path_isfile (E : Environment) (path : option string) : Py bool :=
  match path with
  | Some path => mret (regular_file E path)
  | None =>
      raise (TypeError
               "stat: path should be string, bytes, os.PathLike or integer, not NoneType")
  end.

Definition StopIteration : exn := Exn "StopIteration" [] "".

(** [next(filter(pred, xs))] on a fresh iterator. *)
Fixpoint next_filter {A} (pred : A → Py bool) (xs : list A) : Py A :=
  match xs with
  | [] => raise StopIteration
  | x :: rest =>
      keep ← pred x;
      if keep : bool then mret x else next_filter pred rest
  end.

(** [zip] of the lists [ls], unpacked: the tuples of the [i]-th elements, as long as every list has
    one; [zip_upto n] yields at most [n] tuples. *)
Fixpoint zip_upto {A} (n : nat) (ls : list (list A)) : list (list A) :=
  match n with
  | O => []
  | S n' =>
      match mapM head ls with
      | Some heads => heads :: zip_upto n' (tail <$> ls)
      | None => []
      end
  end.

Definition zip_star {A} (ls : list (list A)) : list (list A) :=
  match ls with
  | [] => []
  | l :: _ => zip_upto (length l) ls
  end.

Section fs.

Variable P : Platform.
Variable E : Environment.

Definition get_directory_name (path : string) : string :=
  let '(head, tail) := os_path_split P path in
  if String.eqb tail "" && negb (String.eqb head path) then
    let '(head, tail) := os_path_split P head in head
  else head.

Definition get_base_name (path : string) : string :=
  let '(head, tail) := os_path_split P path in
  if negb (String.eqb tail "") then tail
  else if negb (String.eqb head path) then
    let '(head, tail) := os_path_split P head in tail
  else tail.

Definition resolve_abspath (path : string) (start : option string) : string :=
  if os_path_isabs P path then path
  else
    let start :=
      match start with
      | None => os_getcwd E
      | Some start => start
      end in
    os_path_join P path [start].

(** The generator [generate_binpaths] of [resolve_binary_path], as the
    list of what it yields. *)
Definition generate_binpaths (binpath workingdir : string)
    (pathdirs : list string) : list (option string) :=
  let should_add_win_exts := String.eqb (os_name P) "nt" in
  let win_exts := [".exe"; ".cmd"; ".bat"] in
  flat_map
    (λ pathdir,
       Some (os_path_join P pathdir [binpath])
         :: (if should_add_win_exts then
               (λ win_ext,
                  let filebasename := binpath +:+ win_ext in
                  Some (os_path_join P pathdir [filebasename])) <$> win_exts
             else []))
    (workingdir :: pathdirs)
  ++ [None].

Definition resolve_binary_path (binpath : string)
    (workingdir : option string) (pathdirs : list string)
    : Py (option string) :=
  if os_path_isabs P binpath then mret (Some binpath)
  else
    let workingdir :=
      match workingdir with
      | None => os_curdir P
      | Some workingdir => workingdir
      end in
    pathdirs ←
      (match pathdirs with
       | [] =>
           match os_getenv_PATH E with
           | None =>
               log WARNING
                 ("cannot read PATH environment variable, might not "
                  +:+ "be able to resolve binary paths correctly") None;;
               mret []
           | Some rawpath => mret (split (os_pathsep P) rawpath)
           end
       | _ => mret pathdirs
       end);
    py_try
      (next_filter (os_path_isfile E)
         (generate_binpaths binpath workingdir pathdirs))
      (λ e, if exn_isinstance e "StopIteration" then mret None
            else raise e).

Definition default_python_binary_path : Py string :=
  pythonw_binpath ←
    (if String.eqb (os_name P) "nt" then
       resolve_binary_path "pythonw" None []
     else mret None);
  match pythonw_binpath with
  | Some (String c rest) => mret (String c rest)
  | _ =>
      python_binpath ← resolve_binary_path "python" None [];
      match python_binpath with
      | Some (String c rest) => mret (String c rest)
      | _ =>
          (* best effort: *)
          mret "python"
      end
  end.

(** The generator [_iter_components] of [_split_path_components]: one
    round of its [while] loop for each unit of [fuel]. *)
Fixpoint _iter_components (fuel : nat) (primary_dirsep secondary_dirsep : ascii)
    (current_path : string) : list string :=
  match fuel with
  | O => []
  | S fuel' =>
      if String.eqb current_path "" then []
      else
        let primary_position := find primary_dirsep current_path in
        let secondary_position := find secondary_dirsep current_path in
        let split_position :=
          if (primary_position >=? 0)%Z && (secondary_position >=? 0)%Z then
            if (primary_position >? secondary_position)%Z
            then secondary_position else primary_position
          else if (primary_position >=? 0)%Z then primary_position
          else if (secondary_position >=? 0)%Z then secondary_position
          else (-1)%Z in
        if (split_position >=? 0)%Z then
          let head :=
            if (split_position >? 0)%Z
            then str_take (Z.to_nat split_position) current_path
            else "" in
          let tail :=
            if (split_position <? Z.of_nat (String.length current_path))%Z
            then str_drop (Z.to_nat (split_position + 1)) current_path
            else "" in
          head :: _iter_components fuel' primary_dirsep secondary_dirsep tail
        else [current_path]
  end.

Definition _split_path_components (path : string) : list string :=
  let primary_dirsep := os_sep P in
  match os_altsep P with
  | None => split primary_dirsep path
  | Some secondary_dirsep =>
      _iter_components (String.length path) primary_dirsep secondary_dirsep
        path
  end.

(** The loop of [_commonpath_polyfill] over the traverser. *)
Fixpoint common_loop (path_traverser : list (list string)) : list string :=
  match path_traverser with
  | [] => []
  | current_components :: rest =>
      match current_components with
      | [] => []
      | one_component :: _ =>
          let all_equal :=
            forallb (λ c, String.eqb c one_component) current_components in
          if negb all_equal then []
          else one_component :: common_loop rest
      end
  end.

Definition _commonpath_polyfill (paths : list string) : Py string :=
  match paths with
  | [] => raise (ValueError "Paths are invalid: %r")
  | [path] => mret path
  | _ =>
      let path_components := _split_path_components <$> paths in
      let path_traverser := zip_star path_components in
      let common_path_components := common_loop path_traverser in
      match common_path_components with
      | [] => raise (ValueError "Paths do not have a common ancestor")
      | first :: rest =>
          mret (os_path_join P (first +:+ String (os_sep P) "") rest)
      end
  end.

Definition get_common_ancestor (paths : list string)
    (default : option string) : Py (option string) :=
  py_try
    (common_path ← _commonpath_polyfill paths; mret (Some common_path))
    (λ e, if exn_isinstance e "ValueError" then mret default else raise e).

End fs.

(** ** Predicates of the statements *)

(** What [_attempt_parse] makes of a sub-parse [sub]: its result when it
    returns; [None] when it raises, with one more log record that carries
    the exception, of level WARNING for a [ValueError] or a
    [NotImplementedError] and of level ERROR for any other exception. *)
Definition downgraded {A} (sub : Py A) (half : option A) (records : list record)
    : Prop :=
  match sub with
  | (l, inr a) => half = Some a ∧ records = l
  | (l, inl e) =>
      half = None ∧
      ∃ text,
        records =
          l ++ [LogRecord
                  (if exn_isinstance e "ValueError"
                      || exn_isinstance e "NotImplementedError"
                   then WARNING else ERROR)
                  text (Some e)]
  end.

(** A context that the parsers accept: no request parameters, or an
    instance of [RequestParameters] whose file types are [None], a list or
    a tuple. *)
Definition context_ok (request_parameters : context) : bool :=
  match request_parameters with
  | CtxOther => false
  | _ => is_file_types (context_file_types request_parameters)
  end.

(** The type tag of an error node: the [TYPE] of its nested [exception]
    descriptor, when the descriptor is a mapping that has a true one. *)
Definition exception_tag (node : gmap string value) : option value :=
  match node !! "exception" with
  | Some (VDict exc) =>
      match exc !! "TYPE" with
      | Some tag => if truthy tag then Some tag else None
      | None => None
      end
  | _ => None
  end.

(** The descriptor of an error node is absent, false or a mapping. *)
Definition descriptor_ok (node : gmap string value) : bool :=
  match node !! "exception" with
  | None | Some (VDict _) => true
  | Some v => negb (truthy v)
  end.

(** The entry expected for an error node: one for a node with a type tag,
    none for the others. *)
Definition expected_diagnostic (node : value) : option DiagnosticError.t :=
  match node with
  | VDict d =>
      match exception_tag d with
      | Some tag =>
          Some (DiagnosticError.new tag (dict_get d "message")
                  (dict_get d "traceback") VNone)
      | None => None
      end
  | _ => None
  end.

(** The log records expected for an error node: none for a node with a
    type tag, a warning for a node without one, an error for a node whose
    descriptor is a true value that is not a mapping. *)
Definition expected_records (node : value) : list record :=
  match node with
  | VDict d =>
      match exception_tag d with
      | Some _ => []
      | None =>
          if descriptor_ok d then
            [LogRecord WARNING "unhandled diagnostic format: %r"
               (Some (NotImplementedError
                        "unimplemented: diagnostic does not have exception type"))]
          else
            [LogRecord ERROR "error while parsing diagnostic: %r"
               (Some (AttributeError "object has no attribute 'get'"))]
      end
  | _ => []
  end.

(** The paths that [resolve_binary_path] is to probe, in order: for each
    directory the bare candidate, followed at once, on a platform with
    executable suffixes, by its three suffix variants. *)
Definition candidate_paths (P : Platform) (binpath : string)
    (dirs : list string) : list string :=
  dirs ≫= λ dir,
    os_path_join P dir [binpath]
      :: (if String.eqb (os_name P) "nt" then
            [ os_path_join P dir [binpath +:+ ".exe"];
              os_path_join P dir [binpath +:+ ".cmd"];
              os_path_join P dir [binpath +:+ ".bat"] ]
          else []).

(** The directories that [resolve_binary_path] is to search, in order: the
    working directory, the current one by default, then the given search
    directories or, by default, those of [PATH]. *)
Definition search_directories (P : Platform) (E : Environment)
    (workingdir : option string) (pathdirs : list string) : list string :=
  default (os_curdir P) workingdir
    :: match pathdirs with
       | [] =>
           match os_getenv_PATH E with
           | Some rawpath => split (os_pathsep P) rawpath
           | None => []
           end
       | _ => pathdirs
       end.

(** The warning of [resolve_binary_path] when it has no search directories
    and [PATH] is not set. *)
Definition path_warning (E : Environment) (pathdirs : list string)
    : list record :=
  match pathdirs, os_getenv_PATH E with
  | [], None =>
      [LogRecord WARNING
         ("cannot read PATH environment variable, might not "
          +:+ "be able to resolve binary paths correctly") None]
  | _, _ => []
  end.

(** [common] is the longest run of leading components on which all the
    lists of [components] agree. *)
Definition leading_agreement (components : list (list string))
    (common : list string) : Prop :=
  (∀ cs, cs ∈ components → common `prefix_of` cs)
  ∧ ¬ ∃ c, ∀ cs, cs ∈ components → (common ++ [c]) `prefix_of` cs.




(** The language tag [tag] is among the file types [tags]. *)
Definition tagged (tag : string) (tags : list value) : bool :=
  existsb (λ v, eq_str v tag) tags.

(** The kind tag is absent, or is neither "class" nor "macro" in any letter
    case: the common tier draws no verdict from it. *)
Definition kind_undecided (repr : value → string) (kind : value) : bool :=
  negb (truthy kind)
  || (negb (String.eqb (lower (py_str repr kind)) "class")
      && negb (String.eqb (lower (py_str repr kind)) "macro")).

(** ** Inputs of the examples *)

(** A [json_parse] that refuses every text, as [json.loads] refuses a text
    that is not JSON. *)
Definition json_parse_refusing : value → Py value :=
  λ _, raise (Exn "JSONDecodeError" ["ValueError"] "Expecting value").

Definition example_completions : list value :=
  [ VDict {[ "insertion_text" := VStr "foo"; "menu_text" := VStr "foo(a, b)" ]};
    VDict {[ "insertion_text" := VStr "bar"; "kind" := VStr "Class" ]} ].

(** A text for the values that are not strings. *)
Definition example_repr : value → string := λ _, "<value>".

(** A reply with two completions and no [errors]. *)
Definition example_reply : gmap string value :=
  {[ "completions" := VList example_completions;
     "completion_start_column" := VInt 3 ]}.

Definition example_errors : list value :=
  [ VDict {[ "message" := VStr "no exception here" ]};
    VDict {[ "exception" := VDict {[ "TYPE" := VStr "RuntimeError" ]};
             "message" := VStr "Still no compile flags, no completions yet." ]} ].

(** A reply with no completions and two error nodes, the first without a
    type tag. *)
Definition example_error_reply : gmap string value :=
  {[ "completions" := VList []; "completion_start_column" := VInt 1;
     "errors" := VList example_errors ]}.

(** A process in [/home/user] with two search directories and a file
    system in which no path is a regular file. *)
Definition example_environment : Environment := {|
  os_getcwd := "/home/user";
  os_getenv_PATH := Some "/usr/bin:/bin";
  regular_file := λ _, false
|}.

(** ** Predicates and inputs of the further properties *)

(** A directory path that names its last component: it is not empty and
    does not end in the separator. *)
Definition names_directory (dir : string) : bool :=
  negb (String.eqb dir "") && negb (endswith dir "/").

(** A component of a path: it is not empty and holds no separator. *)
Definition names_component (name : string) : bool :=
  negb (String.eqb name "") && negb (occurs "/" name).

(** A directory path without doubled or trailing separators: none of its
    components after the first, which is empty for an absolute path, is
    empty. *)
Definition names_ancestor (dir : string) : bool :=
  forallb (λ c, negb (String.eqb c "")) (tail (split "/" dir)).

(** The path of the entry [name] of the directory [dir]. *)
Definition entry_path (dir name : string) : string := dir +:+ "/" +:+ name.

(** A file system whose only regular file is the interpreter installed in
    [/usr/bin], the second directory of [PATH]. *)
Definition example_environment_python : Environment := {|
  os_getcwd := "/home/user";
  os_getenv_PATH := Some "/usr/local/bin:/usr/bin";
  regular_file := λ path, String.eqb path "/usr/bin/python"
|}.

(** The name that [default_python_binary_path] looks up first. *)
Definition preferred_python (P : Platform) : string :=
  if String.eqb (os_name P) "nt" then "pythonw" else "python".

(** The message of ycmd about a configuration file that it has found and
    not loaded: the question, then the hint about the option. *)
Definition example_unknown_extra_conf : DiagnosticError.t :=
  DiagnosticError.new (VStr "UnknownExtraConf")
    (VStr ("Found " +:+ "/home/user/project/.ycm_extra_conf.py" +:+ ". Load?"
           +:+ String " " (String newline (String newline
                 "(Question can be turned off with options, see YCM docs)"))))
    VNone VNone.

(** The warning of [_has_file_type] for an entry whose file types are
    [None]. *)
Definition file_type_warning (file_types : value) : list record :=
  if is_none file_types then
    [LogRecord WARNING "completion option has no associated file types" None]
  else [].

(** An entry of a C++ file, with a kind and a menu text. *)
Definition example_cpp_option : CompletionOption.t :=
  CompletionOption.new (VStr "int") (VStr "size") VNone VNone
    (VList [VStr "cpp"]) (VStr "size() const") (VStr "FUNCTION").

(** An entry without file types. *)
Definition example_untagged_option : CompletionOption.t :=
  CompletionOption.new (VStr "def foo") (VStr "foo") VNone VNone
    VNone (VStr "foo") VNone.

(** The record that [_attempt_parse] logs for the exception [e] of a
    parser, by its three [except] clauses. *)
Definition attempt_record (e : exn) : record :=
  if exn_isinstance e "ValueError" then
    LogRecord WARNING "response has unexpected format: %r" (Some e)
  else if exn_isinstance e "NotImplementedError" then
    LogRecord WARNING "unhandled response format: %r" (Some e)
  else
    LogRecord ERROR "error while parsing response: %r" (Some e).

(** The entries of an error list that has passed the validation: those of
    the nodes with a type tag, in the order of the nodes. *)
Definition expected_diagnostics (nodes : list value)
    : list DiagnosticError.t :=
  omap expected_diagnostic nodes.

(** A [json_parse] that reads the mapping [reply] in every text. *)
Definition json_parse_reading (reply : gmap string value)
    : value → Py value :=
  λ _, mret (VDict reply).

(** A reply with completions and without their start column. *)
Definition example_reply_without_column : gmap string value :=
  {[ "completions" := VList example_completions ]}.

(** [s.split] on either of two separators of one character. *)
Fixpoint split_either (sep1 sep2 : ascii) (s : string) : list string :=
  match s with
  | EmptyString => [EmptyString]
  | String c s' =>
      if Ascii.eqb c sep1 || Ascii.eqb c sep2 then
        EmptyString :: split_either sep1 sep2 s'
      else match split_either sep1 sep2 s' with
           | [] => [String c EmptyString]
           | w :: ws => String c w :: ws
           end
  end.

(** A list of components without its last one when this one is empty. *)
Fixpoint drop_empty_last (l : list string) : list string :=
  match l with
  | [] => []
  | [w] => if String.eqb w "" then [] else [w]
  | w :: ws => w :: drop_empty_last ws
  end.

(** The position at which a round of [_iter_components] splits
    [current_path]: that of the first separator of either kind, or -1. *)
Definition first_separator (primary_dirsep secondary_dirsep : ascii)
    (current_path : string) : Z :=
  let primary_position := find primary_dirsep current_path in
  let secondary_position := find secondary_dirsep current_path in
  if (primary_position >=? 0)%Z && (secondary_position >=? 0)%Z then
    if (primary_position >? secondary_position)%Z
    then secondary_position else primary_position
  else if (primary_position >=? 0)%Z then primary_position
  else if (secondary_position >=? 0)%Z then secondary_position
  else (-1)%Z.

(** A platform with the constants of [os] on Windows.  The functions of
    [ntpath] are not modelled: the statements about this platform read its
    constants only, and the record holds the functions of [posixpath] in
    their place. *)
Definition example_windows : Platform := {|
  os_name := "nt";
  os_sep := "092"%char;
  os_altsep := Some "/"%char;
  os_pathsep := ";"%char;
  os_curdir := ".";
  os_path_isabs := posixpath.isabs;
  os_path_join := posixpath.join;
  os_path_split := posixpath.split
|}.

(** An entry of a file with two languages, whose menu info the handlers of
    both languages understand. *)
Definition example_two_languages_option : CompletionOption.t :=
  CompletionOption.new (VStr "fn = function") (VStr "fn") VNone VNone
    (VList [VStr "javascript"; VStr "python"]) (VStr "fn") VNone.

(** ** The combined parser *)

Section parser_facts.

Variable json_parse : value → Py value.

Lemma attempt_parse_downgraded {A} (sub : Py A) :
  ∃ half records,
    _attempt_parse sub = (records, inr half) ∧ downgraded sub half records.
Proof.
  destruct sub as [l [e|a]]; cbn.
  - destruct (exn_isinstance e "ValueError") eqn:Hv; cbn.
    + eexists _, _. split; [reflexivity|]. split; [done|]. by eexists.
    + destruct (exn_isinstance e "NotImplementedError") eqn:Hn; cbn;
        (eexists _, _; split; [reflexivity|]; split; [done|]; by eexists).
  - eexists _, _. split; [by rewrite app_nil_r|]. done.
Qed.

(** C1: whatever the raw input and the context are, [parse_completions]
    returns a [CompletionResponse] and does not raise: each half of the
    response is the result of its sub-parse when that returns, and is
    [None] when the sub-parse raises, in which case the exception is
    logged, at level WARNING when it is a [ValueError] or a
    [NotImplementedError] and at level ERROR otherwise. *)
Theorem parse_completions_never_raises (raw : value) (ctx : context) :
  ∃ completions diagnostics records1 records2,
    parse_completions json_parse raw ctx
      = (records1 ++ records2,
         inr (CompletionResponse.new completions diagnostics))
    ∧ downgraded (parse_compoptions json_parse raw ctx) completions records1
    ∧ downgraded (parse_diagnostics json_parse raw ctx) diagnostics records2.
Proof.
  destruct (attempt_parse_downgraded (parse_compoptions json_parse raw ctx))
    as (c & r1 & Hc & Dc).
  destruct (attempt_parse_downgraded (parse_diagnostics json_parse raw ctx))
    as (d & r2 & Hd & Dd).
  exists c, d, r1, r2. split; [|done].
  unfold parse_completions. cbn. unfold py_bind.
  rewrite Hc, Hd. cbn. by rewrite app_nil_r.
Qed.

Lemma py_for_returns {A B} (f : A → Py B) (g : A → B) (xs : list A) :
  (∀ x, x ∈ xs → f x = mret (g x)) → py_for f xs = mret (g <$> xs).
Proof.
  induction xs as [|x xs IH]; intros Hf; [done|].
  cbn. rewrite (Hf x) by left. cbn.
  rewrite IH by (intros y Hy; apply Hf; by right). done.
Qed.

Lemma all_dicts (nodes : list value) :
  forallb is_dict nodes = true → ∀ n, n ∈ nodes → ∃ d, n = VDict d.
Proof.
  intros H n Hn. apply list_elem_of_In in Hn.
  pose proof (proj1 (forallb_forall _ _) H n Hn) as Hd.
  destruct n; try done. by eexists.
Qed.

Lemma parse_compoptions_returns (reply : gmap string value)
    (nodes : list value) (column : value) (ctx : context) :
  reply !! "completions" = Some (VList nodes) →
  forallb is_dict nodes = true →
  reply !! "completion_start_column" = Some column →
  context_ok ctx = true →
  ∃ options,
    parse_compoptions json_parse (VDict reply) ctx
      = mret (Completions.new (Some options) column)
    ∧ length options = length nodes
    ∧ ∀ i d, nodes !! i = Some (VDict d) →
        options !! i
        = Some (CompletionOption.new
                  (dict_get d "extra_menu_info")
                  (dict_get d "insertion_text")
                  (dict_get d "extra_data") (dict_get d "detailed_info")
                  (context_file_types ctx)
                  (dict_get d "menu_text") (dict_get d "kind")).
Proof.
  intros Hc Hd Hs Hctx. pose proof (all_dicts nodes Hd) as Hn.
  assert (Hft : is_file_types (context_file_types ctx) = true)
    by (destruct ctx; done).
  set (build := λ n : value,
         match n with
         | VDict d =>
             CompletionOption.new
               (dict_get d "extra_menu_info") (dict_get d "insertion_text")
               (dict_get d "extra_data") (dict_get d "detailed_info")
               (context_file_types ctx)
               (dict_get d "menu_text") (dict_get d "kind")
         | _ =>
             CompletionOption.new VNone VNone VNone VNone VNone VNone VNone
         end).
  exists (build <$> nodes). split; [|split].
  - unfold parse_compoptions, _parse_json_response. cbn.
    rewrite Hc. cbn. rewrite Hd. cbn.
    assert (check_request_parameters ctx = mret tt) as ->
      by (destruct ctx; done).
    cbn. unfold dict_getitem. rewrite Hc, Hs. cbn. rewrite Hft. cbn.
    rewrite (py_for_returns _ build).
    + done.
    + intros n Hin. destruct (Hn n Hin) as [d ->]. cbn.
      rewrite Hft. done.
  - by rewrite length_fmap.
  - intros i d Hi. rewrite list_lookup_fmap, Hi. done.
Qed.

Lemma parse_diagnostics_without_errors (reply : gmap string value)
    (ctx : context) :
  reply !! "errors" = None →
  parse_diagnostics json_parse (VDict reply) ctx
  = raise (ValueError ("json is missing " +:+ quoted "errors" +:+ " list")).
Proof.
  intros He. unfold parse_diagnostics, _parse_json_response. cbn.
  rewrite He. done.
Qed.

(** C2: for a reply, a mapping, whose [completions] are a list of
    mappings, whose [completion_start_column] is present and whose
    [errors] are omitted, and a context that is absent or well formed,
    [parse_completions] returns a response whose completions are not
    [None], are as many as the elements of [completions] and stand in the
    order of these elements, each being the entry of its element, and
    whose diagnostics are [None]. *)
Theorem parse_completions_valid_reply (reply : gmap string value)
    (nodes : list value) (column : value) (ctx : context) :
  reply !! "completions" = Some (VList nodes) →
  forallb is_dict nodes = true →
  reply !! "completion_start_column" = Some column →
  reply !! "errors" = None →
  context_ok ctx = true →
  ∃ collection records,
    parse_completions json_parse (VDict reply) ctx
      = (records, inr (CompletionResponse.new (Some collection) None))
    ∧ Completions.len collection = length nodes
    ∧ Completions._start_column collection = column
    ∧ ∀ i d, nodes !! i = Some (VDict d) →
        Completions.getitem collection i
        = Some (CompletionOption.new
                  (dict_get d "extra_menu_info")
                  (dict_get d "insertion_text")
                  (dict_get d "extra_data") (dict_get d "detailed_info")
                  (context_file_types ctx)
                  (dict_get d "menu_text") (dict_get d "kind")).
Proof.
  intros Hc Hn Hs He Hctx.
  destruct (parse_compoptions_returns reply nodes column ctx Hc Hn Hs Hctx)
    as (options & Hp & Hlen & Hent).
  eexists (Completions.new (Some options) column), _.
  split; [|split; [exact Hlen|split; [done|exact Hent]]].
  unfold parse_completions.
  rewrite Hp, (parse_diagnostics_without_errors reply ctx He).
  reflexivity.
Qed.

Lemma try_parse_diagnostic_node (ft : value) (d : gmap string value) :
  is_file_types ft = true →
  _try_parse_diagnostic ft (VDict d)
  = (expected_records (VDict d), inr (expected_diagnostic (VDict d))).
Proof.
  intros Hft.
  unfold _try_parse_diagnostic, _parse_diagnostic, expected_records,
    expected_diagnostic, exception_tag, descriptor_ok, dict_get.
  cbn. rewrite Hft. cbn.
  destruct (d !! "exception") as [exc|] eqn:Hexc; cbn; [|done].
  destruct exc as [ |b|z|q|s|b|l|l|exc]; cbn; try done.
  - by destruct b.
  - by destruct (Z.eqb z 0).
  - by destruct (Z.eqb (Qnum q) 0).
  - by destruct (String.eqb s "").
  - by destruct (String.eqb b "").
  - by destruct (Nat.eqb (length l) 0).
  - by destruct (Nat.eqb (length l) 0).
  - destruct (Nat.eqb (size exc) 0) eqn:Hsize; cbn.
    + apply Nat.eqb_eq, map_size_empty_inv in Hsize. subst exc.
      by rewrite lookup_empty.
    + destruct (exc !! "TYPE") as [tag|]; cbn; [|done].
      by destruct (truthy tag).
Qed.

Lemma iter_diagnostics_returns (ft : value) (nodes : list value) :
  is_file_types ft = true →
  (∀ n, n ∈ nodes → ∃ d, n = VDict d) →
  _iter_diagnostics ft nodes
  = (nodes ≫= expected_records, inr (omap expected_diagnostic nodes)).
Proof.
  intros Hft. induction nodes as [|n nodes IH]; intros Hn; [done|].
  destruct (Hn n) as [d ->]; [by left|].
  change (_iter_diagnostics ft (VDict d :: nodes))
    with (py_bind (_try_parse_diagnostic ft (VDict d))
            (λ parsed,
               py_bind (_iter_diagnostics ft nodes)
                 (λ later,
                    py_ret (match parsed with
                            | Some parsed => parsed :: later
                            | None => later
                            end)))).
  rewrite (try_parse_diagnostic_node ft d Hft).
  rewrite IH by (intros m Hm; apply Hn; by right).
  cbn [omap list_omap]. rewrite bind_cons.
  unfold py_bind, py_ret. rewrite app_nil_r.
  by destruct (expected_diagnostic (VDict d)).
Qed.

Lemma expected_diagnostic_tagged (nodes : list value) (e : DiagnosticError.t) :
  e ∈ omap expected_diagnostic nodes →
  truthy (DiagnosticError._exception_type e) = true.
Proof.
  rewrite list_elem_of_omap. intros (n & _ & Hn).
  destruct n as [ | | | | | | | |d]; try done. cbn in Hn.
  unfold exception_tag in Hn.
  destruct (d !! "exception") as [[ | | | | | | | |exc]|]; try done.
  destruct (exc !! "TYPE") as [tag|]; try done.
  destruct (truthy tag) eqn:Ht; try done.
  by injection Hn as <-.
Qed.

Lemma parse_diagnostics_returns (reply : gmap string value)
    (completions nodes : list value) (ctx : context) :
  reply !! "completions" = Some (VList completions) →
  forallb is_dict completions = true →
  context_ok ctx = true →
  reply !! "errors" = Some (VList nodes) →
  forallb is_dict nodes = true →
  parse_diagnostics json_parse (VDict reply) ctx
  = match nodes with
    | [] => mret (Diagnostics.new None)
    | _ =>
        (nodes ≫= expected_records,
         inr (Diagnostics.new (Some (omap expected_diagnostic nodes))))
    end.
Proof.
  intros Hc Hdc Hctx He Hdn.
  assert (Hft : is_file_types (context_file_types ctx) = true)
    by (destruct ctx; done).
  unfold parse_diagnostics, _parse_json_response. cbn.
  rewrite He. cbn. rewrite Hdn. cbn. rewrite Hc. cbn. rewrite Hdc. cbn.
  assert (check_request_parameters ctx = mret tt) as ->
    by (destruct ctx; done).
  cbn. rewrite Hft. cbn. rewrite He. cbn.
  destruct nodes as [|n nodes]; [done|].
  pose proof (iter_diagnostics_returns (context_file_types ctx) _ Hft
                (all_dicts _ Hdn)) as Hit.
  remember (n :: nodes) as ns eqn:Hns. cbn.
  assert (Nat.eqb (length ns) 0 = false) as -> by (by subst ns).
  cbn. rewrite Hit. cbn. by rewrite !app_nil_r.
Qed.

(** C5, as amended: for a reply whose [completions] are a list of
    mappings and a context that is absent or well formed,
    [parse_diagnostics] returns the explicit no-diagnostics result
    [Diagnostics(None)], and not an empty list, when [errors] is an empty
    list; it raises a [ValueError] when [errors] is absent; and for a
    nonempty list [errors] of mappings it returns, without raising, the
    entries of the nodes that have a type tag, in the order of the nodes,
    each with an exception type that is not [None], a node without a tag
    being skipped with a warning (and one whose descriptor is a true value
    that is not a mapping, with an error record). *)
Theorem parse_diagnostics_amended (reply : gmap string value)
    (completions : list value) (ctx : context) :
  reply !! "completions" = Some (VList completions) →
  forallb is_dict completions = true →
  context_ok ctx = true →
  (reply !! "errors" = Some (VList []) →
   parse_diagnostics json_parse (VDict reply) ctx
   = mret (Diagnostics.new None))
  ∧ (reply !! "errors" = None →
     ∃ text,
       parse_diagnostics json_parse (VDict reply) ctx
       = raise (ValueError text))
  ∧ (∀ nodes,
       reply !! "errors" = Some (VList nodes) →
       nodes ≠ [] →
       forallb is_dict nodes = true →
       ∃ entries,
         parse_diagnostics json_parse (VDict reply) ctx
         = (nodes ≫= expected_records,
            inr (Diagnostics.new (Some entries)))
         ∧ entries = omap expected_diagnostic nodes
         ∧ ∀ e, e ∈ entries → DiagnosticError._exception_type e ≠ VNone).
Proof.
  intros Hc Hdc Hctx. split; [|split].
  - intros He.
    by rewrite (parse_diagnostics_returns reply completions [] ctx).
  - intros He. eexists.
    by rewrite (parse_diagnostics_without_errors reply ctx He).
  - intros nodes He Hne Hdn. exists (omap expected_diagnostic nodes).
    split; [|split; [done|]].
    + rewrite (parse_diagnostics_returns reply completions nodes ctx)
        by done.
      by destruct nodes.
    + intros e Hin Hnone.
      apply expected_diagnostic_tagged in Hin. by rewrite Hnone in Hin.
Qed.

End parser_facts.

(** The statement of C2 at the example reply. *)
Lemma parse_completions_valid_reply_witness :
  ∃ collection records,
    parse_completions json_parse_refusing (VDict example_reply) CtxNone
      = (records, inr (CompletionResponse.new (Some collection) None))
    ∧ Completions.len collection = length example_completions
    ∧ Completions._start_column collection = VInt 3
    ∧ ∀ i d, example_completions !! i = Some (VDict d) →
        Completions.getitem collection i
        = Some (CompletionOption.new
                  (dict_get d "extra_menu_info")
                  (dict_get d "insertion_text")
                  (dict_get d "extra_data") (dict_get d "detailed_info")
                  (context_file_types CtxNone)
                  (dict_get d "menu_text") (dict_get d "kind")).
Proof.
  apply (parse_completions_valid_reply json_parse_refusing example_reply
           example_completions (VInt 3) CtxNone); vm_compute; reflexivity.
Defined.

(** C5, as it is stated, fails: with [errors] absent, [parse_diagnostics]
    does not return a no-diagnostics result, it raises a [ValueError]. *)
Lemma parse_diagnostics_errors_absent :
  example_reply !! "errors" = None
  ∧ parse_diagnostics json_parse_refusing (VDict example_reply) CtxNone
    = raise (ValueError ("json is missing " +:+ quoted "errors" +:+ " list"))
  ∧ ¬ ∃ records result,
        parse_diagnostics json_parse_refusing (VDict example_reply) CtxNone
        = (records, inr result).
Proof.
  split; [reflexivity|]. split; [vm_compute; reflexivity|].
  intros (records & result & H). vm_compute in H. discriminate H.
Qed.

(** The statement of C5, as amended, at the example reply with errors. *)
Lemma parse_diagnostics_amended_witness :
  ∃ entries,
    parse_diagnostics json_parse_refusing (VDict example_error_reply) CtxNone
    = (example_errors ≫= expected_records,
       inr (Diagnostics.new (Some entries)))
    ∧ entries = omap expected_diagnostic example_errors
    ∧ ∀ e, e ∈ entries → DiagnosticError._exception_type e ≠ VNone.
Proof.
  apply (parse_diagnostics_amended json_parse_refusing example_error_reply
           [] CtxNone); try (vm_compute; reflexivity).
  discriminate.
Defined.

(** ** File-system utilities *)

(** C10: for a relative [path] and an absolute [start], [resolve_abspath]
    returns [start] itself and nothing of [path]: it joins its arguments in
    the order [(path, start)], and the join drops what comes before an
    absolute argument. *)
Theorem resolve_abspath_returns_start (E : Environment) (path start : string) :
  os_path_isabs posix path = false →
  os_path_isabs posix start = true →
  resolve_abspath posix E path (Some start) = posixpath.join path [start]
  ∧ resolve_abspath posix E path (Some start) = start.
Proof.
  intros Hrel Habs. unfold resolve_abspath. rewrite Hrel.
  split; [reflexivity|]. cbn in *. unfold posixpath.isabs in Habs.
  by rewrite Habs.
Qed.

(** The statement of C10 at a relative path and an absolute start. *)
Lemma resolve_abspath_returns_start_witness :
  resolve_abspath posix example_environment "lib/util" (Some "/srv/project")
    = posixpath.join "lib/util" ["/srv/project"]
  ∧ resolve_abspath posix example_environment "lib/util" (Some "/srv/project")
    = "/srv/project".
Proof.
  apply (resolve_abspath_returns_start example_environment "lib/util"
           "/srv/project"); reflexivity.
Defined.

(** The last component, also after a trailing separator. *)
Lemma get_base_name_examples :
  get_base_name posix "/usr/lib/python" = "python"
  ∧ get_base_name posix "/usr/lib/" = "lib"
  ∧ get_directory_name posix "/usr/lib/" = "/usr".
Proof. repeat split; reflexivity. Qed.

(** C9, at a root: the base name of ["/"] is the empty string, where the
    claim and the docstring of [get_base_name] have [None]. *)
Theorem get_base_name_root :
  os_path_split posix "/" = ("/", "") ∧ get_base_name posix "/" = "".
Proof. split; reflexivity. Qed.

Lemma generate_binpaths_candidates (P : Platform) (binpath workingdir : string)
    (pathdirs : list string) :
  generate_binpaths P binpath workingdir pathdirs
  = (Some <$> candidate_paths P binpath (workingdir :: pathdirs)) ++ [None].
Proof.
  unfold generate_binpaths, candidate_paths. f_equal.
  induction (workingdir :: pathdirs) as [|dir dirs IH]; [done|].
  cbn [flat_map]. rewrite bind_cons, fmap_app, IH. f_equal.
  by destruct (String.eqb (os_name P) "nt").
Qed.

Lemma next_filter_found (E : Environment) (before : list string) (p : string)
    (rest : list (option string)) :
  (∀ q, q ∈ before → regular_file E q = false) →
  regular_file E p = true →
  next_filter (os_path_isfile E) ((Some <$> before) ++ Some p :: rest)
  = mret (Some p).
Proof.
  induction before as [|q before IH]; intros Hb Hp; cbn.
  - by rewrite Hp.
  - rewrite (Hb q) by left. cbn.
    rewrite IH by (try done; intros r Hr; apply Hb; by right). done.
Qed.

Lemma next_filter_exhausted (E : Environment) (paths : list string) :
  (∀ q, q ∈ paths → regular_file E q = false) →
  next_filter (os_path_isfile E) ((Some <$> paths) ++ [None])
  = raise (TypeError
             "stat: path should be string, bytes, os.PathLike or integer, not NoneType").
Proof.
  induction paths as [|q paths IH]; intros Hb; cbn; [done|].
  rewrite (Hb q) by left. cbn.
  rewrite IH by (intros r Hr; apply Hb; by right). done.
Qed.

(** An absolute [binpath] is returned as it is. *)
Lemma resolve_binary_path_absolute (P : Platform) (E : Environment)
    (binpath : string) (workingdir : option string) (pathdirs : list string) :
  os_path_isabs P binpath = true →
  resolve_binary_path P E binpath workingdir pathdirs = mret (Some binpath).
Proof. intros H. unfold resolve_binary_path. by rewrite H. Qed.

Lemma resolve_binary_path_search (P : Platform) (E : Environment)
    (binpath : string) (workingdir : option string) (pathdirs : list string) :
  os_path_isabs P binpath = false →
  resolve_binary_path P E binpath workingdir pathdirs
  = py_bind (path_warning E pathdirs, inr tt)
      (λ _,
         py_try
           (next_filter (os_path_isfile E)
              ((Some <$> candidate_paths P binpath
                           (search_directories P E workingdir pathdirs))
               ++ [None]))
           (λ e, if exn_isinstance e "StopIteration" then mret None
                 else raise e)).
Proof.
  intros Hrel. unfold resolve_binary_path, search_directories, path_warning.
  rewrite Hrel.
  destruct pathdirs as [|dir dirs]; [destruct (os_getenv_PATH E)|];
    destruct workingdir;
    cbn -[generate_binpaths candidate_paths next_filter];
    by rewrite generate_binpaths_candidates.
Qed.

(** The first candidate that is a regular file is returned, the candidates
    being probed in the order of [candidate_paths] over the directories of
    [search_directories]. *)
Lemma resolve_binary_path_first_file (P : Platform) (E : Environment)
    (binpath : string) (workingdir : option string)
    (pathdirs before after : list string) (p : string) :
  os_path_isabs P binpath = false →
  candidate_paths P binpath (search_directories P E workingdir pathdirs)
    = before ++ p :: after →
  (∀ q, q ∈ before → regular_file E q = false) →
  regular_file E p = true →
  resolve_binary_path P E binpath workingdir pathdirs
  = (path_warning E pathdirs, inr (Some p)).
Proof.
  intros Hrel Hc Hb Hp. rewrite resolve_binary_path_search by done.
  rewrite Hc, fmap_app, <- app_assoc. cbn [fmap list_fmap app].
  rewrite (next_filter_found E before p _ Hb Hp).
  cbn. by rewrite app_nil_r.
Qed.

(** When no candidate is a regular file, the search ends on the [None] that
    the generator yields last, which [os.path.isfile] refuses. *)
Lemma resolve_binary_path_exhausted (P : Platform) (E : Environment)
    (binpath : string) (workingdir : option string) (pathdirs : list string) :
  os_path_isabs P binpath = false →
  (∀ q, q ∈ candidate_paths P binpath
                (search_directories P E workingdir pathdirs) →
        regular_file E q = false) →
  resolve_binary_path P E binpath workingdir pathdirs
  = (path_warning E pathdirs,
     inl (TypeError
            "stat: path should be string, bytes, os.PathLike or integer, not NoneType")).
Proof.
  intros Hrel Hb. rewrite resolve_binary_path_search by done.
  rewrite (next_filter_exhausted E _ Hb). cbn. by rewrite app_nil_r.
Qed.

(** C4, where no candidate is a regular file: the lookup of ["python"]
    from the current directory and the directories of [PATH] probes
    [./python], [/usr/bin/python] and [/bin/python], then does not return
    [None]: it raises a [TypeError]. *)
Theorem resolve_binary_path_not_found_raises :
  generate_binpaths posix "python" "." ["/usr/bin"; "/bin"]
    = [Some "./python"; Some "/usr/bin/python"; Some "/bin/python"; None]
  ∧ resolve_binary_path posix example_environment "python" None []
    = raise (TypeError
               "stat: path should be string, bytes, os.PathLike or integer, not NoneType").
Proof. split; reflexivity. Qed.

(** *** The path components *)

Lemma str_drop_length (k : nat) (s : string) :
  (String.length (str_drop k s) ≤ String.length s)%nat.
Proof.
  revert s. induction k as [|k IH]; intros [|c s]; cbn; try lia.
  specialize (IH s). lia.
Qed.

(** The fuel that [_split_path_components] gives to the loop of
    [_iter_components], the length of the path, lets the loop run to its
    end: more fuel changes nothing. *)
Lemma iter_components_fuel (n m : nat) (primary secondary : ascii)
    (current_path : string) :
  (String.length current_path ≤ n)%nat →
  (String.length current_path ≤ m)%nat →
  _iter_components n primary secondary current_path
  = _iter_components m primary secondary current_path.
Proof.
  revert m current_path.
  induction n as [|n IH]; intros m current_path Hn Hm.
  - destruct current_path; [|cbn in Hn; lia]. by destruct m.
  - destruct m as [|m].
    { destruct current_path; [done|cbn in Hm; lia]. }
    cbn [_iter_components].
    destruct current_path as [|c rest]; [done|].
    cbn [String.eqb].
    set (split_position :=
           if (find primary (String c rest) >=? 0)%Z
              && (find secondary (String c rest) >=? 0)%Z
           then if (find primary (String c rest)
                    >? find secondary (String c rest))%Z
                then find secondary (String c rest)
                else find primary (String c rest)
           else if (find primary (String c rest) >=? 0)%Z
                then find primary (String c rest)
                else if (find secondary (String c rest) >=? 0)%Z
                     then find secondary (String c rest) else (-1)%Z).
    destruct (split_position >=? 0)%Z eqn:Hpos; [|done].
    f_equal. apply Z.geb_le in Hpos.
    cbn [String.length] in Hn, Hm.
    destruct (split_position <? Z.of_nat (String.length (String c rest)))%Z.
    + replace (Z.to_nat (split_position + 1))
        with (S (Z.to_nat split_position)) by lia.
      cbn [str_drop].
      pose proof (str_drop_length (Z.to_nat split_position) rest).
      apply IH; lia.
    + apply IH; cbn; lia.
Qed.

(** *** The common ancestor *)

Lemma zip_star_step {A} (ls : list (list A)) :
  ls ≠ [] →
  zip_star ls
  = match mapM head ls with
    | Some heads => heads :: zip_star (tail <$> ls)
    | None => []
    end.
Proof.
  destruct ls as [|l ls]; [done|]. intros _.
  destruct l as [|x l]; [done|].
  unfold zip_star at 1. cbn [length zip_upto].
  destruct (mapM head ((x :: l) :: ls)); done.
Qed.

Lemma heads_agree (c : string) (components : list (list string)) :
  (∀ cs, cs ∈ components → [c] `prefix_of` cs) →
  mapM head components = Some ((λ _, c) <$> components).
Proof.
  intros H. apply mapM_Some. induction components as [|cs rest IH]; cbn.
  - constructor.
  - constructor.
    + destruct (H cs) as [k ->]; [left|]. done.
    + apply IH. intros cs' Hcs'. apply H. by right.
Qed.

Lemma all_equal_heads (h : string) (heads : list string)
    (components : list (list string)) :
  mapM head components = Some heads →
  forallb (λ c, String.eqb c h) heads = true →
  ∀ cs, cs ∈ components → [h] `prefix_of` cs.
Proof.
  intros Hm Hall cs Hcs. apply mapM_Some in Hm.
  apply list_elem_of_lookup in Hcs as [i Hi].
  destruct (Forall2_lookup_l _ _ _ _ _ Hm Hi) as (x & Hx & Hhead).
  assert (x = h) as ->.
  { apply String.eqb_eq.
    apply (proj1 (forallb_forall _ _) Hall).
    apply list_elem_of_In, list_elem_of_lookup. eauto. }
  destruct cs as [|y cs]; [done|]. injection Hhead as ->.
  by exists cs.
Qed.

Lemma common_loop_agreement (components : list (list string))
    (common : list string) :
  components ≠ [] →
  leading_agreement components common →
  common_loop (zip_star components) = common.
Proof.
  revert components.
  induction common as [|c common IH]; intros components Hne [Hpre Hmax].
  - rewrite zip_star_step by done.
    destruct (mapM head components) as [heads|] eqn:Hm; [|done].
    destruct heads as [|h heads]; [done|]. cbn [common_loop].
    destruct (forallb (λ c, String.eqb c h) (h :: heads)) eqn:Hall; [|done].
    destruct Hmax. exists h. intros cs Hcs.
    by apply (all_equal_heads h (h :: heads) components).
  - assert (Hc : ∀ cs, cs ∈ components → [c] `prefix_of` cs).
    { intros cs Hcs. destruct (Hpre cs Hcs) as [k ->].
      by exists (common ++ k). }
    rewrite zip_star_step, (heads_agree c components Hc) by done.
    remember (tail <$> components) as tails eqn:Htails.
    destruct components as [|cs0 rest]; [done|].
    cbn [fmap list_fmap common_loop].
    assert (forallb (λ c0, String.eqb c0 c) (c :: ((λ _, c) <$> rest)) = true)
      as Hall.
    { apply forallb_forall. intros x Hx. apply String.eqb_eq.
      destruct Hx as [<-|Hx]; [done|].
      apply list_elem_of_In, list_elem_of_fmap in Hx as (? & -> & _). done. }
    rewrite Hall. cbn [negb]. f_equal.
    apply IH; subst tails; [done|]. split.
    + intros ts Hts. apply list_elem_of_fmap in Hts as (cs & -> & Hcs).
      destruct (Hpre cs Hcs) as [k ->]. by exists k.
    + intros [c' Hc']. destruct Hmax. exists c'. intros cs Hcs.
      destruct (Hpre cs Hcs) as [k Hk].
      destruct (Hc' (tail cs)) as [k' Hk'].
      { apply list_elem_of_fmap. eauto. }
      exists k'. rewrite Hk in Hk' |- *. cbn in Hk' |- *.
      by rewrite Hk', <- !app_assoc.
Qed.

Lemma commonpath_polyfill_agreement (P : Platform) (paths common : list string) :
  (2 ≤ length paths)%nat →
  leading_agreement (_split_path_components P <$> paths) common →
  _commonpath_polyfill P paths
  = match common with
    | [] => raise (ValueError "Paths do not have a common ancestor")
    | first :: rest =>
        mret (os_path_join P (first +:+ String (os_sep P) "") rest)
    end.
Proof.
  intros Hlen Hagree.
  destruct paths as [|p1 [|p2 paths]]; [cbn in Hlen; lia..|].
  unfold _commonpath_polyfill.
  by rewrite (common_loop_agreement _ common) by done.
Qed.

(** C3, as it is stated, fails: the components of ["/usr"] and of ["/lib"]
    agree on their first, the empty string before the root separator, so
    that [_commonpath_polyfill] raises nothing and returns the root, and
    [get_common_ancestor] does not fall back to its default. *)
Lemma commonpath_usr_lib_is_root :
  _split_path_components posix <$> ["/usr"; "/lib"] = [[""; "usr"]; [""; "lib"]]
  ∧ _commonpath_polyfill posix ["/usr"; "/lib"] = mret "/"
  ∧ get_common_ancestor posix ["/usr"; "/lib"] (Some "/fallback")
    = mret (Some "/")
  ∧ ¬ ∃ records e,
        _commonpath_polyfill posix ["/usr"; "/lib"] = (records, inl e).
Proof.
  repeat split; try reflexivity.
  intros (records & e & H). vm_compute in H. discriminate H.
Qed.

(** C3, as amended: [_commonpath_polyfill] rejects an empty list of paths
    with a [ValueError]; returns a single path as it is; and for two paths
    or more returns the join of the leading components on which all the
    paths agree, the separator being added to the first of them, or raises
    a [ValueError] when they agree on none, in which case
    [get_common_ancestor] returns the default of its caller.  So
    ["/usr/lib"] and ["/usr/bin"] give ["/usr"]; ["/usr"] and ["/lib"],
    which agree on the empty component before the root, give the root
    ["/"]; ["usr"] and ["lib"] agree on nothing and give the default. *)
Theorem commonpath_polyfill_amended (P : Platform) (default : option string) :
  (∃ text, _commonpath_polyfill P [] = raise (ValueError text))
  ∧ get_common_ancestor P [] default = mret default
  ∧ (∀ path, _commonpath_polyfill P [path] = mret path)
  ∧ (∀ paths common,
       (2 ≤ length paths)%nat →
       leading_agreement (_split_path_components P <$> paths) common →
       match common with
       | [] =>
           (∃ text, _commonpath_polyfill P paths = raise (ValueError text))
           ∧ get_common_ancestor P paths default = mret default
       | first :: rest =>
           _commonpath_polyfill P paths
           = mret (os_path_join P (first +:+ String (os_sep P) "") rest)
       end)
  ∧ _commonpath_polyfill posix ["/usr/lib"; "/usr/bin"] = mret "/usr"
  ∧ _commonpath_polyfill posix ["/usr"; "/lib"] = mret "/"
  ∧ (∃ text, _commonpath_polyfill posix ["usr"; "lib"] = raise (ValueError text))
  ∧ get_common_ancestor posix ["usr"; "lib"] default = mret default.
Proof.
  split; [by eexists|]. split; [done|]. split; [done|].
  split; [|repeat split; try reflexivity; by eexists].
  intros paths common Hlen Hagree.
  pose proof (commonpath_polyfill_agreement P paths common Hlen Hagree) as H.
  destruct common as [|first rest]; [|done].
  split; [by eexists|]. unfold get_common_ancestor. by rewrite H.
Qed.

(** The statement of C3, as amended, at two paths that agree on two
    components. *)
Lemma commonpath_polyfill_amended_witness :
  (2 ≤ length ["/usr/lib"; "/usr/bin"])%nat
  ∧ leading_agreement
      (_split_path_components posix <$> ["/usr/lib"; "/usr/bin"]) [""; "usr"]
  ∧ _commonpath_polyfill posix ["/usr/lib"; "/usr/bin"]
    = mret (os_path_join posix ("" +:+ String (os_sep posix) "") ["usr"]).
Proof.
  assert (Hlen : (2 ≤ length ["/usr/lib"; "/usr/bin"])%nat) by (cbn; lia).
  assert (Hagree : leading_agreement
            (_split_path_components posix <$> ["/usr/lib"; "/usr/bin"])
            [""; "usr"]).
  { split.
    - intros cs Hcs. cbn in Hcs.
      apply elem_of_cons in Hcs as [->|Hcs]; [by exists ["lib"]|].
      apply list_elem_of_singleton in Hcs as ->. by exists ["bin"].
    - intros [c Hc].
      destruct (Hc [""; "usr"; "lib"]) as [k Hk]; [by left|].
      destruct (Hc [""; "usr"; "bin"]) as [k' Hk']; [by right; left|].
      cbn in Hk, Hk'. congruence. }
  split; [exact Hlen|]. split; [exact Hagree|].
  exact (proj1 (proj2 (proj2 (proj2
           (commonpath_polyfill_amended posix None))))
           ["/usr/lib"; "/usr/bin"] [""; "usr"] Hlen Hagree).
Defined.

(** ** The insertion text *)

Lemma append_cons (c : ascii) (a b : string) :
  String c a +:+ b = String c (a +:+ b).
Proof. reflexivity. Qed.

Lemma append_nil_l (b : string) : "" +:+ b = b.
Proof. reflexivity. Qed.

Lemma append_assoc (a b c : string) : (a +:+ b) +:+ c = a +:+ (b +:+ c).
Proof.
  induction a as [|x a IH]; [done|]. by rewrite !append_cons, IH.
Qed.

Lemma occurs_append (c : ascii) (a b : string) :
  occurs c (a +:+ b) = occurs c a || occurs c b.
Proof.
  induction a as [|x a IH]; [done|].
  rewrite append_cons. cbn. by rewrite IH, orb_assoc.
Qed.

Lemma str_take_append (a b : string) :
  str_take (String.length a) (a +:+ b) = a.
Proof.
  induction a as [|x a IH]; [by destruct b|].
  rewrite append_cons. cbn. by rewrite IH.
Qed.

Lemma length_append (a b : string) :
  String.length (a +:+ b) = (String.length a + String.length b)%nat.
Proof.
  induction a as [|x a IH]; [done|]. rewrite append_cons. cbn. by rewrite IH.
Qed.

(** The greedy [.*] hands over the longest stretch first: a success after
    a stretch stands when the stretch is made longer to the left. *)
Lemma any_star_skip {A} (k : string → option A) (p u : string) (r : A) :
  occurs newline p = false →
  any_star k u = Some r →
  any_star k (p +:+ u) = Some r.
Proof.
  induction p as [|c p IH]; [done|]. intros Hnl Hu.
  rewrite append_cons. cbn in Hnl |- *.
  apply orb_false_iff in Hnl as [Hc Hp]. rewrite Hc.
  by rewrite (IH Hp Hu).
Qed.

(** Where the continuation wants an opening parenthesis and the text has
    none, [.*] fails. *)
Lemma any_star_no_paren {A} (k : string → option A) (s : string) :
  (∀ t, (∀ t', t ≠ String "(" t') → k t = None) →
  occurs "(" s = false →
  any_star k s = None.
Proof.
  intros Hk. induction s as [|c s IH]; cbn; intros Hs.
  - by apply Hk.
  - apply orb_false_iff in Hs as [Hc Hs].
    assert (k (String c s) = None) as Hfail.
    { apply Hk. intros t' [= -> _]. by rewrite Ascii.eqb_refl in Hc. }
    rewrite (IH Hs), Hfail. by destruct (Ascii.eqb c newline).
Qed.





Lemma split_no_sep (sep : ascii) (a : string) :
  occurs sep a = false → split sep a = [a].
Proof.
  induction a as [|c a IH]; [done|]. cbn. intros H.
  apply orb_false_iff in H as [Hc Ha]. by rewrite Hc, (IH Ha).
Qed.


Lemma join_cons (sep a : string) (b : string) (l : list string) :
  join sep (a :: b :: l) = a +:+ sep +:+ join sep (b :: l).
Proof. reflexivity. Qed.















(** ** The classifier *)

Section classifier.

Variable repr : value → string.

Lemma has_file_type_tagged (self : CompletionOption.t) (tags : list value)
    (tag : string) :
  CompletionOption._file_types self = VList tags →
  tags ≠ [] →
  CompletionOption._has_file_type self tag = mret (tagged tag tags).
Proof.
  intros Hft Hne. unfold CompletionOption._has_file_type. rewrite Hft.
  destruct tags; done.
Qed.

(** The loop over the handlers returns the verdict [v] of a handler whose
    language is among the file types, whatever the order of the handlers,
    when the other handlers of such languages have no verdict. *)
Lemma shortdesc_loop_finds (self : CompletionOption.t)
    (order : list (string * (value → value → Py value))) (v : value) :
  is_none v = false →
  (∀ ft h, (ft, h) ∈ order →
     CompletionOption._has_file_type self ft = mret false
     ∨ (CompletionOption._has_file_type self ft = mret true
        ∧ (h (CompletionOption._menu_info self) (CompletionOption._kind self)
             = mret VNone
           ∨ h (CompletionOption._menu_info self)
               (CompletionOption._kind self) = mret v))) →
  (∃ ft h, (ft, h) ∈ order
     ∧ CompletionOption._has_file_type self ft = mret true
     ∧ h (CompletionOption._menu_info self) (CompletionOption._kind self)
       = mret v) →
  CompletionOption.shortdesc_loop self order = mret (Some v).
Proof.
  intros Hv. induction order as [|[ft h] order IH]; intros Hall Hex.
  - destruct Hex as (? & ? & Hin & _). by apply elem_of_nil in Hin.
  - assert (Hrest : ∀ ft' h', (ft', h') ∈ order →
              CompletionOption._has_file_type self ft' = mret false
              ∨ (CompletionOption._has_file_type self ft' = mret true
                 ∧ (h' (CompletionOption._menu_info self)
                      (CompletionOption._kind self) = mret VNone
                    ∨ h' (CompletionOption._menu_info self)
                        (CompletionOption._kind self) = mret v)))
      by (intros ft' h' Hin; apply Hall; by right).
    cbn [CompletionOption.shortdesc_loop].
    destruct (Hall ft h) as [Hno|[Hyes [Hnone|Hfound]]]; [by left|..].
    + rewrite Hno. cbn. rewrite IH; [done..|].
      destruct Hex as (ft' & h' & Hin & Hyes & Hfound).
      apply elem_of_cons in Hin as [[= -> ->]|Hin]; [|eauto].
      rewrite Hno in Hyes. by injection Hyes.
    + rewrite Hyes. cbn. rewrite Hnone. cbn. rewrite IH; [done..|].
      destruct Hex as (ft' & h' & Hin & Hyes' & Hfound).
      apply elem_of_cons in Hin as [[= -> ->]|Hin]; [|eauto].
      rewrite Hnone in Hfound. injection Hfound as <-. done.
    + rewrite Hyes. cbn. rewrite Hfound. cbn. by rewrite Hv.
Qed.

Lemma shortdesc_common_undecided (menu_info : string) (kind : value) :
  menu_info ≠ "" → menu_info ≠ "[ID]" →
  kind_undecided repr kind = true →
  _shortdesc_common repr (VStr menu_info) kind = mret VNone.
Proof.
  intros Hne Hid Hkind. unfold _shortdesc_common. cbn.
  destruct (String.eqb_spec menu_info ""); [done|].
  destruct (String.eqb_spec menu_info "[ID]"); [done|]. cbn.
  unfold kind_undecided in Hkind.
  destruct (truthy kind); [|done]. cbn in Hkind.
  apply andb_true_iff in Hkind as [Hc Hm].
  apply negb_true_iff in Hc, Hm. by rewrite Hc, Hm.
Qed.

Lemma shortdesc_by_language (self : CompletionOption.t)
    (order : list (string * (value → value → Py value)))
    (tags : list value) (menu_info : string) (v : value) :
  order ≡ₚ shortdesc_handlers →
  CompletionOption._file_types self = VList tags →
  tagged "cpp" tags = false →
  CompletionOption._menu_info self = VStr menu_info →
  menu_info ≠ "" → menu_info ≠ "[ID]" →
  kind_undecided repr (CompletionOption._kind self) = true →
  is_none v = false →
  (tagged "python" tags = true →
     _shortdesc_python (VStr menu_info) (CompletionOption._kind self)
       = mret VNone
     ∨ _shortdesc_python (VStr menu_info) (CompletionOption._kind self)
       = mret v) →
  (tagged "javascript" tags = true →
     _shortdesc_javascript (VStr menu_info) (CompletionOption._kind self)
       = mret VNone
     ∨ _shortdesc_javascript (VStr menu_info) (CompletionOption._kind self)
       = mret v) →
  (tagged "python" tags = true
     ∧ _shortdesc_python (VStr menu_info) (CompletionOption._kind self)
       = mret v)
  ∨ (tagged "javascript" tags = true
     ∧ _shortdesc_javascript (VStr menu_info) (CompletionOption._kind self)
       = mret v) →
  CompletionOption.shortdesc repr order self = mret v.
Proof.
  intros Hperm Hft Hcpp Hmi Hne Hid Hkind Hv Hpy Hjs Hfound.
  assert (Htags : tags ≠ []).
  { intros ->. by destruct Hfound as [[? _]|[? _]]. }
  unfold CompletionOption.shortdesc. rewrite Hmi.
  rewrite (shortdesc_common_undecided menu_info _ Hne Hid Hkind). cbn.
  rewrite (shortdesc_loop_finds self order v Hv); [done|..].
  - intros ft h Hin. rewrite Hperm in Hin.
    rewrite (has_file_type_tagged self tags ft Hft Htags), Hmi.
    unfold shortdesc_handlers in Hin.
    apply elem_of_cons in Hin as [[= -> ->]|Hin]; [left; by rewrite Hcpp|].
    apply elem_of_cons in Hin as [[= -> ->]|Hin].
    { destruct (tagged "python" tags); [right|by left]. split; auto. }
    apply list_elem_of_singleton in Hin as [= -> ->].
    destruct (tagged "javascript" tags); [right|by left]. split; auto.
  - destruct Hfound as [[Ht Hh]|[Ht Hh]].
    + exists "python", _shortdesc_python. rewrite Hperm.
      rewrite (has_file_type_tagged self tags _ Hft Htags), Ht, Hmi.
      split; [|done]. unfold shortdesc_handlers. right. left.
    + exists "javascript", _shortdesc_javascript. rewrite Hperm.
      rewrite (has_file_type_tagged self tags _ Hft Htags), Ht, Hmi.
      split; [|done]. unfold shortdesc_handlers. right. right. left.
Qed.

(** C7: whatever the order in which the language handlers are tried,
    [shortdesc] returns the unknown marker for an entry with no
    descriptive text and no kind; the class category for an entry whose
    kind is "class" in any letter case and whose descriptive text is not
    the identifier marker; the function category for an entry tagged
    python (and not cpp) whose descriptive text is "def foo"; and the
    number category for an entry tagged javascript (and not cpp) whose
    descriptive text is "number", the kind of these two drawing no
    verdict from the common tier. *)
Theorem shortdesc_classifies
    (order : list (string * (value → value → Py value))) :
  order ≡ₚ shortdesc_handlers →
  (∀ self : CompletionOption.t,
     CompletionOption._menu_info self = VNone
     ∨ CompletionOption._menu_info self = VStr "" →
     truthy (CompletionOption._kind self) = false →
     CompletionOption.shortdesc repr order self
     = mret (VStr SHORTDESC_UNKNOWN))
  ∧ (∀ (self : CompletionOption.t) (kind : string),
       CompletionOption._kind self = VStr kind →
       lower kind = "class" →
       is_none (CompletionOption._menu_info self)
       || is_str (CompletionOption._menu_info self) = true →
       eq_str (CompletionOption._menu_info self) "[ID]" = false →
       CompletionOption.shortdesc repr order self
       = mret (VStr SHORTDESC_TYPE_CLASS))
  ∧ (∀ (self : CompletionOption.t) (tags : list value),
       CompletionOption._file_types self = VList tags →
       tagged "python" tags = true →
       tagged "cpp" tags = false →
       CompletionOption._menu_info self = VStr "def foo" →
       kind_undecided repr (CompletionOption._kind self) = true →
       CompletionOption.shortdesc repr order self
       = mret (VStr SHORTDESC_FUNCTION))
  ∧ (∀ (self : CompletionOption.t) (tags : list value),
       CompletionOption._file_types self = VList tags →
       tagged "javascript" tags = true →
       tagged "cpp" tags = false →
       CompletionOption._menu_info self = VStr "number" →
       kind_undecided repr (CompletionOption._kind self) = true →
       CompletionOption.shortdesc repr order self
       = mret (VStr SHORTDESC_TYPE_NUMBER)).
Proof.
  intros Hperm. split; [|split; [|split]].
  - intros self Hmi Hkind. unfold CompletionOption.shortdesc.
    unfold _shortdesc_common. rewrite Hkind.
    by destruct Hmi as [-> | ->].
  - intros self kind Hkind Hclass Hmi Hid.
    unfold CompletionOption.shortdesc, _shortdesc_common.
    rewrite Hkind, Hmi. cbn.
    assert (String.eqb kind "" = false) as ->.
    { destruct kind; [done|]. done. }
    rewrite Hid, Hclass. cbn. rewrite andb_false_r.
    by destruct (truthy (CompletionOption._menu_info self)).
  - intros self tags Hft Hpy Hcpp Hmi Hkind.
    apply (shortdesc_by_language self order tags "def foo"); try done.
    + intros _. by right.
    + intros _. by left.
    + left. by split.
  - intros self tags Hft Hjs Hcpp Hmi Hkind.
    apply (shortdesc_by_language self order tags "number"); try done.
    + intros _. by left.
    + intros _. by right.
    + right. by split.
Qed.

End classifier.

(** The statement of C7 at four entries, the handlers being tried in the
    order of their table. *)
Lemma shortdesc_classifies_witness :
  CompletionOption.shortdesc example_repr shortdesc_handlers
    (CompletionOption.new VNone (VStr "bar") VNone VNone VNone VNone VNone)
  = mret (VStr SHORTDESC_UNKNOWN)
  ∧ CompletionOption.shortdesc example_repr shortdesc_handlers
      (CompletionOption.new VNone (VStr "bar") VNone VNone VNone VNone
         (VStr "Class"))
    = mret (VStr SHORTDESC_TYPE_CLASS)
  ∧ CompletionOption.shortdesc example_repr shortdesc_handlers
      (CompletionOption.new (VStr "def foo") (VStr "foo") VNone VNone
         (VList [VStr "python"]) VNone VNone)
    = mret (VStr SHORTDESC_FUNCTION)
  ∧ CompletionOption.shortdesc example_repr shortdesc_handlers
      (CompletionOption.new (VStr "number") (VStr "n") VNone VNone
         (VList [VStr "javascript"]) VNone VNone)
    = mret (VStr SHORTDESC_TYPE_NUMBER).
Proof.
  destruct (shortdesc_classifies example_repr shortdesc_handlers
              (reflexivity shortdesc_handlers)) as (H1 & H2 & H3 & H4).
  split; [|split; [|split]].
  - apply H1; [by left|reflexivity].
  - apply (H2 _ "Class"); reflexivity.
  - apply (H3 _ [VStr "python"]); reflexivity.
  - apply (H4 _ [VStr "javascript"]); reflexivity.
Defined.

(** ** The diagnostic predicates *)

Lemma prefix_spec (p s : string) :
  String.prefix p s = true ↔ ∃ post, s = p +:+ post.
Proof.
  revert p. induction s as [|d s IH]; intros [|c p]; cbn.
  - split; [by exists ""|done].
  - split; [done|]. by intros [post Hpost].
  - split; [intros _; by exists (String d s)|done].
  - destruct (ascii_dec c d) as [->|Hne].
    + rewrite IH. split; intros [post Hpost]; exists post.
      * by rewrite append_cons, <- Hpost.
      * rewrite append_cons in Hpost. by injection Hpost.
    + split; [done|]. intros [post Hpost].
      rewrite append_cons in Hpost. by injection Hpost as -> _.
Qed.

Lemma contains_spec (sub s : string) :
  contains sub s = true ↔ ∃ pre post, s = pre +:+ sub +:+ post.
Proof.
  induction s as [|c s IH].
  - cbn [contains]. rewrite orb_false_r, prefix_spec. split.
    + intros [post Hpost]. by exists "", post.
    + intros (pre & post & H). destruct pre; [by exists post|done].
  - cbn [contains]. rewrite orb_true_iff, prefix_spec, IH. split.
    + intros [[post Hpost]|(pre & post & H)].
      * by exists "", post.
      * exists (String c pre), post. by rewrite append_cons, <- H.
    + intros (pre & post & H). destruct pre as [|d pre].
      * left. by exists post.
      * right. rewrite append_cons in H. injection H as -> H.
        by exists pre, post.
Qed.

(** C8: an entry is a runtime error when its exception type is
    "RuntimeError"; for such an entry, with a message that is absent or a
    string, [is_compile_flag_missing_error] returns, and returns a true
    value exactly when the message contains "no compile flags"; for any
    other entry the assertion fires. *)
Theorem compile_flag_missing_predicate (self : DiagnosticError.t) :
  (DiagnosticError.is_runtime_error self = true
   ↔ DiagnosticError._exception_type self = VStr "RuntimeError")
  ∧ (DiagnosticError.is_runtime_error self = true →
     is_none (DiagnosticError._message self)
     || is_str (DiagnosticError._message self) = true →
     ∃ v,
       DiagnosticError.is_compile_flag_missing_error self = mret v
       ∧ (truthy v = true
          ↔ ∃ message pre post,
              DiagnosticError._message self = VStr message
              ∧ message = pre +:+ "no compile flags" +:+ post))
  ∧ (DiagnosticError.is_runtime_error self = false →
     ∃ text,
       DiagnosticError.is_compile_flag_missing_error self
       = raise (AssertionError text)).
Proof.
  split; [|split].
  - unfold DiagnosticError.is_runtime_error, eq_str.
    destruct (DiagnosticError._exception_type self); try done.
    rewrite String.eqb_eq. split; [by intros ->|by intros [= ->]].
  - intros Hrt Hmsg. unfold DiagnosticError.is_compile_flag_missing_error.
    rewrite Hrt. cbn.
    destruct (DiagnosticError._message self) as [ | | | |m| | | | ]; try done.
    + exists VNone. split; [done|]. split; [done|].
      by intros (? & ? & ? & ? & _).
    + cbn. destruct (String.eqb_spec m "") as [->|Hne]; cbn.
      * exists (VStr ""). split; [done|]. split; [done|].
        intros (m & pre & post & [= <-] & H). by destruct pre.
      * exists (VBool (contains "no compile flags" m)). split; [done|].
        cbn. rewrite contains_spec. split.
        -- intros (pre & post & H). by exists m, pre, post.
        -- intros (m' & pre & post & [= <-] & H). by exists pre, post.
  - intros Hrt. unfold DiagnosticError.is_compile_flag_missing_error.
    rewrite Hrt. by eexists.
Qed.

(** The statement of C8 at a runtime error about compile flags. *)
Lemma compile_flag_missing_predicate_witness :
  ∃ v,
    DiagnosticError.is_compile_flag_missing_error
      (DiagnosticError.new (VStr "RuntimeError")
         (VStr "Still no compile flags, no completions yet.") VNone VNone)
    = mret v
    ∧ (truthy v = true
       ↔ ∃ message pre post,
           VStr "Still no compile flags, no completions yet." = VStr message
           ∧ message = pre +:+ "no compile flags" +:+ post).
Proof.
  apply (proj1 (proj2 (compile_flag_missing_predicate
           (DiagnosticError.new (VStr "RuntimeError")
              (VStr "Still no compile flags, no completions yet.")
              VNone VNone)))); reflexivity.
Defined.

(** ** The base name *)

Lemma rfind_absent (c : ascii) (s : string) :
  occurs c s = false → rfind c s = (-1)%Z.
Proof.
  induction s as [|x s IH]; [done|]. cbn. intros H.
  apply orb_false_iff in H as [Hx Hs]. by rewrite (IH Hs), Hx.
Qed.

Lemma rfind_last (c : ascii) (a b : string) :
  occurs c b = false →
  rfind c (a +:+ String c b) = Z.of_nat (String.length a).
Proof.
  intros Hb. induction a as [|x a IH].
  - rewrite append_nil_l. cbn. by rewrite (rfind_absent c b Hb), Ascii.eqb_refl.
  - rewrite append_cons. cbn [rfind String.length]. rewrite IH.
    destruct (0 <=? Z.of_nat (String.length a))%Z eqn:H; [lia|].
    apply Z.leb_gt in H. lia.
Qed.

Lemma str_take_snoc (c : ascii) (a b : string) :
  str_take (S (String.length a)) (a +:+ String c b) = a +:+ String c "".
Proof.
  induction a as [|x a IH]; [by destruct b|].
  rewrite !append_cons.
  change (String x (str_take (S (String.length a)) (a +:+ String c b))
          = String x (a +:+ String c "")).
  by rewrite IH.
Qed.

Lemma str_drop_snoc (c : ascii) (a b : string) :
  str_drop (S (String.length a)) (a +:+ String c b) = b.
Proof.
  induction a as [|x a IH]; [by destruct b|].
  rewrite !append_cons.
  change (str_drop (S (String.length a)) (a +:+ String c b) = b).
  by rewrite IH.
Qed.

Lemma rstrip_char_snoc (c : ascii) (s : string) :
  rstrip_char c (s +:+ String c "") = rstrip_char c s.
Proof.
  induction s as [|x s IH].
  - rewrite append_nil_l. cbn. by rewrite Ascii.eqb_refl.
  - rewrite append_cons. cbn [rstrip_char]. by rewrite IH.
Qed.

Lemma rstrip_char_absent (c : ascii) (s : string) :
  occurs c s = false → rstrip_char c s = s.
Proof.
  induction s as [|x s IH]; [done|]. cbn. intros H.
  apply orb_false_iff in H as [Hx Hs]. rewrite (IH Hs), Hx. by destruct s.
Qed.

Lemma rstrip_char_kept (c : ascii) (a b : string) :
  b ≠ "" → occurs c b = false → rstrip_char c (a +:+ b) = a +:+ b.
Proof.
  intros Hne Hb. induction a as [|x a IH].
  - by apply rstrip_char_absent.
  - rewrite append_cons. cbn [rstrip_char]. rewrite IH.
    destruct (a +:+ b) eqn:Hab; [|done].
    destruct a; [|done]. by rewrite append_nil_l in Hab.
Qed.

Lemma repeat_all (c d : ascii) (n : nat) (x y : string) :
  x +:+ String d y = str_repeat c n → d = c.
Proof.
  revert n. induction x as [|e x IH]; intros [|n]; try done.
  - rewrite append_nil_l. cbn. by intros [= -> _].
  - rewrite append_cons. cbn. intros [= _ H]. by apply (IH n).
Qed.

(** [posixpath.split] at the last separator of a path. *)
Lemma posix_split_last (a b : string) :
  occurs "/" b = false →
  posixpath.split (a +:+ String "/" b)
  = (if negb (String.eqb (a +:+ "/") "")
        && negb (String.eqb (a +:+ "/")
                   (str_repeat "/" (String.length (a +:+ "/"))))
     then rstrip_char "/" (a +:+ "/") else a +:+ "/",
     b).
Proof.
  intros Hb. unfold posixpath.split, posixpath.sep.
  rewrite (rfind_last "/" a b Hb).
  replace (Z.to_nat (Z.of_nat (String.length a) + 1))
    with (S (String.length a)) by lia.
  by rewrite str_take_snoc, str_drop_snoc.
Qed.

(** The base name of a path whose last component is [name]. *)
Lemma get_base_name_last (dir name : string) :
  name ≠ "" → occurs "/" name = false →
  get_base_name posix (dir +:+ "/" +:+ name) = name.
Proof.
  intros Hne Hname. unfold get_base_name. cbn [os_path_split posix].
  rewrite append_cons, append_nil_l, posix_split_last by done.
  by destruct (String.eqb_spec name "").
Qed.

(** The base name of a path that ends in a separator is found by the second
    split, made on the path without this separator. *)
Lemma get_base_name_trailing (dir name : string) :
  name ≠ "" → occurs "/" name = false →
  get_base_name posix (dir +:+ "/" +:+ name +:+ "/") = name.
Proof.
  intros Hne Hname.
  rewrite append_cons, append_nil_l.
  replace (dir +:+ String "/" (name +:+ "/"))
    with ((dir +:+ String "/" name) +:+ String "/" "")
    by (by rewrite append_assoc, append_cons).
  set (path := dir +:+ String "/" name) in *.
  assert (Hpath : path = (dir +:+ "/") +:+ name)
    by (unfold path; by rewrite append_assoc).
  assert (Hkept : rstrip_char "/" path = path)
    by (rewrite Hpath; by apply rstrip_char_kept).
  unfold get_base_name. cbn [os_path_split posix].
  rewrite (posix_split_last path "") by done.
  assert (String.eqb (path +:+ "/") "" = false) as ->
    by (unfold path; destruct dir; done).
  assert (String.eqb (path +:+ "/")
            (str_repeat "/" (String.length (path +:+ "/"))) = false) as ->.
  { apply String.eqb_neq. intros Heq. destruct name as [|d rest]; [done|].
    cbn in Hname. apply orb_false_iff in Hname as [Hd _].
    unfold path in Heq.
    replace ((dir +:+ String "/" (String d rest)) +:+ "/")
      with ((dir +:+ "/") +:+ String d (rest +:+ "/")) in Heq
      by (by rewrite !append_assoc).
    apply repeat_all in Heq. subst d. done. }
  cbn [negb andb String.eqb]. rewrite rstrip_char_snoc, Hkept.
  assert (String.eqb path (path +:+ "/") = false) as ->.
  { apply String.eqb_neq. intros Heq.
    apply (f_equal String.length) in Heq. rewrite length_append in Heq.
    cbn in Heq. lia. }
  cbn [negb]. unfold path. by rewrite (posix_split_last dir name Hname).
Qed.

(** * Further properties *)

(** ** Directory name and base name *)

Lemma rstrip_char_not_endswith (c : ascii) (s : string) :
  endswith s c = false → rstrip_char c s = s.
Proof.
  induction s as [|x s IH]; [done|]. cbn [endswith rstrip_char].
  destruct s as [|y s].
  - cbn. by intros ->.
  - intros H. by rewrite (IH H).
Qed.

Lemma not_all_sep (c : ascii) (s y : string) (n : nat) :
  s ≠ "" → endswith s c = false → s +:+ y ≠ str_repeat c n.
Proof.
  revert n. induction s as [|x s IH]; intros n Hne Hend; [done|].
  destruct n as [|n]; [by rewrite append_cons|].
  rewrite append_cons. cbn [str_repeat]. intros [= -> H].
  destruct s as [|z s].
  - cbn in Hend. by rewrite Ascii.eqb_refl in Hend.
  - by apply (IH n).
Qed.

Lemma names_component_spec (name : string) :
  names_component name = true → name ≠ "" ∧ occurs "/" name = false.
Proof.
  unfold names_component. intros [Hne Hocc]%andb_true_iff.
  apply negb_true_iff in Hne, Hocc. split; [by intros ->|done].
Qed.

Lemma names_directory_spec (dir : string) :
  names_directory dir = true → dir ≠ "" ∧ endswith dir "/" = false.
Proof.
  unfold names_directory. intros [Hne Hend]%andb_true_iff.
  apply negb_true_iff in Hne, Hend. split; [by intros ->|done].
Qed.

(** [posixpath.split] of [dir/name]. *)
Lemma posix_split_component (dir name : string) :
  names_directory dir = true →
  occurs "/" name = false →
  posixpath.split (dir +:+ String "/" name) = (dir, name).
Proof.
  intros [Hne Hend]%names_directory_spec Hname.
  rewrite posix_split_last by done.
  assert (String.eqb (dir +:+ "/") "" = false) as -> by (by destruct dir).
  assert (String.eqb (dir +:+ "/")
            (str_repeat "/" (String.length (dir +:+ "/"))) = false) as ->.
  { apply String.eqb_neq. by apply not_all_sep. }
  cbn [negb andb].
  by rewrite rstrip_char_snoc, rstrip_char_not_endswith.
Qed.

(** [posixpath.split] of [/name]. *)
Lemma posix_split_root_component (name : string) :
  occurs "/" name = false →
  posixpath.split (String "/" name) = ("/", name).
Proof.
  intros Hname. by rewrite <- (append_nil_l (String "/" name)),
    posix_split_last.
Qed.

Lemma endswith_snoc (s : string) (c d : ascii) :
  endswith (s +:+ String d "") c = Ascii.eqb d c.
Proof.
  induction s as [|x s IH]; [done|]. rewrite append_cons.
  cbn [endswith]. rewrite IH. destruct s; [done|]. by rewrite append_cons.
Qed.

Lemma endswith_absent (c : ascii) (s : string) :
  occurs c s = false → endswith s c = false.
Proof.
  induction s as [|x s IH]; [done|]. intros H.
  change (occurs c (String x s)) with (Ascii.eqb x c || occurs c s) in H.
  apply orb_false_iff in H as [Hx Hs].
  destruct s as [|y s]; [exact Hx|].
  change (endswith (String y s) c = false). by apply IH.
Qed.

Lemma endswith_component (dir name : string) (c : ascii) :
  name ≠ "" → occurs c name = false →
  endswith (dir +:+ String c name) c = false.
Proof.
  intros Hne Hname. induction dir as [|x dir IH].
  - rewrite append_nil_l. destruct name as [|y name]; [done|].
    change (endswith (String y name) c = false). by apply endswith_absent.
  - rewrite append_cons.
    destruct (dir +:+ String c name) eqn:Heq; [by destruct dir|].
    exact IH.
Qed.

(** [posixpath.split] of [dir/name/]: the empty last component. *)
Lemma posix_split_trailing (dir name : string) :
  names_component name = true →
  posixpath.split (dir +:+ String "/" (name +:+ "/"))
  = (dir +:+ String "/" name, "").
Proof.
  intros [Hne Hname]%names_component_spec.
  replace (dir +:+ String "/" (name +:+ "/"))
    with ((dir +:+ String "/" name) +:+ String "/" "")
    by (by rewrite append_assoc, append_cons).
  apply posix_split_component; [|done].
  unfold names_directory.
  rewrite (endswith_component dir name "/" Hne Hname).
  by destruct dir.
Qed.

Lemma get_directory_name_last (dir name : string) :
  names_directory dir = true →
  names_component name = true →
  get_directory_name posix (dir +:+ "/" +:+ name) = dir
  ∧ get_directory_name posix (dir +:+ "/" +:+ name +:+ "/") = dir
  ∧ get_directory_name posix ("/" +:+ name) = "/".
Proof.
  intros Hdir Hcomp.
  destruct (names_component_spec name Hcomp) as [Hne Hname].
  assert (Hnot : String.eqb name "" = false) by (by apply String.eqb_neq).
  rewrite !append_cons, !append_nil_l.
  unfold get_directory_name. cbn [os_path_split posix].
  split; [|split].
  - rewrite posix_split_component by done. by rewrite Hnot.
  - rewrite posix_split_trailing by done. cbn [String.eqb andb].
    assert (String.eqb (dir +:+ String "/" name)
              (dir +:+ String "/" (name +:+ "/")) = false) as ->.
    { apply String.eqb_neq. intros Heq.
      apply (f_equal String.length) in Heq.
      rewrite !length_append in Heq. cbn in Heq.
      rewrite length_append in Heq. cbn in Heq. lia. }
    cbn [negb]. by rewrite posix_split_component.
  - rewrite posix_split_root_component by done. by rewrite Hnot.
Qed.

(** X1: on POSIX, the directory name of [dir/name] is [dir], and so is
    that of [dir/name/], the trailing separator being stripped by a second
    split; the directory name of [/name] is the root. *)
Theorem get_directory_name_parent (dir name : string) :
  names_directory dir = true →
  names_component name = true →
  get_directory_name posix (dir +:+ "/" +:+ name) = dir
  ∧ get_directory_name posix (dir +:+ "/" +:+ name +:+ "/") = dir
  ∧ get_directory_name posix ("/" +:+ name) = "/".
Proof. apply get_directory_name_last. Qed.

Lemma get_directory_name_parent_witness :
  get_directory_name posix ("/usr/lib" +:+ "/" +:+ "python") = "/usr/lib"
  ∧ get_directory_name posix ("/usr/lib" +:+ "/" +:+ "python" +:+ "/")
    = "/usr/lib"
  ∧ get_directory_name posix ("/" +:+ "python") = "/".
Proof.
  apply (get_directory_name_parent "/usr/lib" "python"); reflexivity.
Defined.

(** X2: on POSIX, the base name of [dir/name] is [name], whatever [dir]
    is, and a trailing separator changes nothing: the base name of
    [dir/name/] is [name] too. *)
Theorem get_base_name_component (dir name : string) :
  names_component name = true →
  get_base_name posix (dir +:+ "/" +:+ name) = name
  ∧ get_base_name posix (dir +:+ "/" +:+ name +:+ "/") = name.
Proof.
  intros [Hne Hname]%names_component_spec. split.
  - by apply get_base_name_last.
  - by apply get_base_name_trailing.
Qed.

Lemma get_base_name_component_witness :
  get_base_name posix ("/usr" +:+ "/" +:+ "lib") = "lib"
  ∧ get_base_name posix ("/usr" +:+ "/" +:+ "lib" +:+ "/") = "lib".
Proof. apply (get_base_name_component "/usr" "lib"); reflexivity. Defined.

Lemma startswith_sep_component (name : string) :
  names_component name = true → startswith name "/" = false.
Proof.
  intros [Hne Hname]%names_component_spec. unfold startswith.
  destruct (String.prefix "/" name) eqn:H; [|done].
  apply prefix_spec in H as [post ->]. by rewrite append_cons in Hname.
Qed.

(** X3: on POSIX, the directory name and the base name of a path put the
    path together again: their join is [dir/name] for the path [dir/name],
    and also for [dir/name/], whose trailing separator is lost. *)
Theorem directory_and_base_name_join (dir name : string) :
  names_directory dir = true →
  names_component name = true →
  os_path_join posix (get_directory_name posix (dir +:+ "/" +:+ name))
    [get_base_name posix (dir +:+ "/" +:+ name)]
  = dir +:+ "/" +:+ name
  ∧ os_path_join posix
      (get_directory_name posix (dir +:+ "/" +:+ name +:+ "/"))
      [get_base_name posix (dir +:+ "/" +:+ name +:+ "/")]
    = dir +:+ "/" +:+ name.
Proof.
  intros Hdir Hcomp.
  destruct (get_directory_name_last dir name Hdir Hcomp) as (-> & -> & _).
  destruct (names_component_spec name Hcomp) as [Hnotempty Hname].
  rewrite (get_base_name_last dir name Hnotempty Hname).
  rewrite (get_base_name_trailing dir name Hnotempty Hname).
  destruct (names_directory_spec dir Hdir) as [Hne Hend].
  assert (posixpath.join dir [name] = dir +:+ "/" +:+ name) as Hjoin.
  { unfold posixpath.join. cbn [posixpath.join_loop].
    rewrite (startswith_sep_component name Hcomp).
    unfold posixpath.sep. rewrite Hend.
    by destruct (String.eqb_spec dir ""). }
  cbn [os_path_join posix]. by rewrite Hjoin.
Qed.

Lemma directory_and_base_name_join_witness :
  os_path_join posix (get_directory_name posix ("/usr" +:+ "/" +:+ "lib"))
    [get_base_name posix ("/usr" +:+ "/" +:+ "lib")]
  = "/usr" +:+ "/" +:+ "lib"
  ∧ os_path_join posix
      (get_directory_name posix ("/usr" +:+ "/" +:+ "lib" +:+ "/"))
      [get_base_name posix ("/usr" +:+ "/" +:+ "lib" +:+ "/")]
    = "/usr" +:+ "/" +:+ "lib".
Proof.
  apply (directory_and_base_name_join "/usr" "lib"); reflexivity.
Defined.

(** ** Path components *)

Lemma split_components_free (sep : ascii) (s c : string) :
  c ∈ split sep s → occurs sep c = false.
Proof.
  revert c. induction s as [|x s IH]; intros c Hc.
  - cbn in Hc. by apply list_elem_of_singleton in Hc as ->.
  - cbn [split] in Hc. destruct (Ascii.eqb x sep) eqn:Hx.
    + apply elem_of_cons in Hc as [->|Hc]; [done|by apply IH].
    + destruct (split sep s) as [|w ws] eqn:Hs.
      * apply list_elem_of_singleton in Hc as ->. cbn. by rewrite Hx.
      * apply elem_of_cons in Hc as [->|Hc].
        -- cbn. rewrite Hx. apply IH. by left.
        -- apply IH. by right.
Qed.

Lemma find_absent (c : ascii) (s : string) :
  (find c s < 0)%Z → occurs c s = false.
Proof.
  induction s as [|x s IH]; [done|]. cbn [find occurs].
  destruct (Ascii.eqb x c); [lia|].
  destruct (0 <=? find c s)%Z eqn:H.
  - apply Z.leb_le in H. lia.
  - apply Z.leb_gt in H. intros _. by apply IH.
Qed.

Lemma find_lower_bound (c : ascii) (s : string) : (-1 ≤ find c s)%Z.
Proof.
  induction s as [|x s IH]; cbn [find]; [lia|].
  destruct (Ascii.eqb x c); [lia|].
  destruct (0 <=? find c s)%Z eqn:H; [apply Z.leb_le in H|]; lia.
Qed.

(** Before the first occurrence of a character there is none. *)
Lemma take_before_find (c : ascii) (s : string) (k : nat) :
  (find c s < 0 ∨ Z.of_nat k ≤ find c s)%Z →
  occurs c (str_take k s) = false.
Proof.
  revert k. induction s as [|x s IH]; intros k Hk; [by destruct k|].
  destruct k as [|k]; [done|]. cbn [str_take occurs].
  cbn [find] in Hk. destruct (Ascii.eqb x c); [lia|]. cbn [orb].
  apply IH. destruct (0 <=? find c s)%Z eqn:H.
  - apply Z.leb_le in H. lia.
  - apply Z.leb_gt in H. lia.
Qed.

Lemma iter_components_free (fuel : nat) (primary secondary : ascii)
    (current_path c : string) :
  c ∈ _iter_components fuel primary secondary current_path →
  occurs primary c = false ∧ occurs secondary c = false.
Proof.
  revert current_path.
  induction fuel as [|fuel IH]; intros current_path Hc.
  { by apply elem_of_nil in Hc. }
  cbn [_iter_components] in Hc.
  destruct (String.eqb current_path "") eqn:Hempty.
  { by apply elem_of_nil in Hc. }
  pose proof (find_lower_bound primary current_path) as Hp.
  pose proof (find_lower_bound secondary current_path) as Hs.
  revert Hc.
  set (split_position :=
         if (find primary current_path >=? 0)%Z
            && (find secondary current_path >=? 0)%Z
         then if (find primary current_path
                  >? find secondary current_path)%Z
              then find secondary current_path
              else find primary current_path
         else if (find primary current_path >=? 0)%Z
              then find primary current_path
              else if (find secondary current_path >=? 0)%Z
                   then find secondary current_path else (-1)%Z).
  assert (Hsplit :
    ((split_position < 0 ∧ find primary current_path < 0
      ∧ find secondary current_path < 0)
     ∨ (0 ≤ split_position
        ∧ (find primary current_path < 0
           ∨ split_position ≤ find primary current_path)
        ∧ (find secondary current_path < 0
           ∨ split_position ≤ find secondary current_path)))%Z).
  { unfold split_position.
    destruct (find primary current_path >=? 0)%Z eqn:H1;
      destruct (find secondary current_path >=? 0)%Z eqn:H2; cbn [andb];
      [destruct (find primary current_path
                 >? find secondary current_path)%Z eqn:H3|..];
      rewrite ?Z.geb_leb, ?Z.gtb_ltb in *;
      rewrite ?Z.leb_le, ?Z.leb_gt, ?Z.ltb_lt, ?Z.ltb_ge in *; lia. }
  destruct (split_position >=? 0)%Z eqn:Hpos; intros Hc.
  - destruct Hsplit as [[H _]|(_ & H1 & H2)];
      [rewrite Z.geb_leb, Z.leb_le in Hpos; lia|].
    apply elem_of_cons in Hc as [->|Hc]; [|by apply (IH _ Hc)].
    destruct (split_position >? 0)%Z; [|done].
    split; apply take_before_find; lia.
  - apply list_elem_of_singleton in Hc as ->.
    destruct Hsplit as [(_ & H1 & H2)|[H _]];
      [|rewrite Z.geb_leb, Z.leb_gt in Hpos; lia].
    split; by apply find_absent.
Qed.

(** X4: on every platform, no component that [_split_path_components]
    yields holds a directory separator, be it the primary one or, where the
    platform has one, the secondary one. *)
Theorem split_path_components_free (P : Platform) (path c : string) :
  c ∈ _split_path_components P path →
  occurs (os_sep P) c = false
  ∧ ∀ secondary, os_altsep P = Some secondary → occurs secondary c = false.
Proof.
  unfold _split_path_components. intros Hc.
  destruct (os_altsep P) as [secondary|].
  - destruct (iter_components_free _ _ _ _ _ Hc) as [H1 H2].
    split; [done|]. by intros ? [= <-].
  - split; [by apply (split_components_free _ path)|done].
Qed.

Lemma split_path_components_free_witness :
  occurs (os_sep example_windows) "Program Files" = false
  ∧ ∀ secondary,
      os_altsep example_windows = Some secondary →
      occurs secondary "Program Files" = false.
Proof.
  apply (split_path_components_free example_windows
           "C:\Program Files/Sublime Text 3" "Program Files").
  vm_compute. right. left.
Defined.

Lemma split_not_nil (sep : ascii) (s : string) : split sep s ≠ [].
Proof.
  destruct s as [|x s]; [done|]. cbn.
  destruct (Ascii.eqb x sep); [done|]. by destruct (split sep s).
Qed.

Lemma join_split (sep : ascii) (s : string) :
  join (String sep "") (split sep s) = s.
Proof.
  induction s as [|x s IH]; [done|]. cbn [split].
  pose proof (split_not_nil sep s) as Hne.
  destruct (Ascii.eqb_spec x sep) as [->|Hx].
  - destruct (split sep s) as [|w ws]; [done|].
    rewrite join_cons, IH. reflexivity.
  - destruct (split sep s) as [|w ws]; [done|].
    destruct ws as [|w' ws].
    + cbn in IH |- *. by rewrite IH.
    + rewrite join_cons in IH |- *. by rewrite append_cons, IH.
Qed.

(** X5: on a platform with one directory separator, the components of a
    path, joined by the separator, are the path again: nothing of the path
    is lost or changed by [_split_path_components]. *)
Theorem split_path_components_join (P : Platform) (path : string) :
  os_altsep P = None →
  join (String (os_sep P) "") (_split_path_components P path) = path.
Proof.
  intros Halt. unfold _split_path_components. rewrite Halt.
  apply join_split.
Qed.

Lemma split_path_components_join_witness :
  join (String (os_sep posix) "") (_split_path_components posix "/usr//lib/")
  = "/usr//lib/".
Proof. apply (split_path_components_join posix "/usr//lib/"). reflexivity. Defined.

(** ** The common ancestor of any paths *)

Lemma all_equal_const (c : string) {A} (l : list A) :
  forallb (λ c0, String.eqb c0 c) (c :: ((λ _, c) <$> l)) = true.
Proof.
  apply forallb_forall. intros x Hx. apply String.eqb_eq.
  destruct Hx as [<-|Hx]; [done|].
  apply list_elem_of_In, list_elem_of_fmap in Hx as (? & -> & _). done.
Qed.

(** What the loop of [_commonpath_polyfill] collects is the longest run of
    leading components on which all the lists agree. *)
Lemma common_loop_is_agreement (components : list (list string)) :
  components ≠ [] →
  leading_agreement components (common_loop (zip_star components)).
Proof.
  destruct components as [|first rest]; [done|]. intros _.
  remember (length first) as n eqn:Hn. revert first rest Hn.
  induction n as [n IH] using lt_wf_ind. intros first rest ->.
  rewrite zip_star_step by done.
  destruct (mapM head (first :: rest)) as [heads|] eqn:Hm.
  - destruct heads as [|h heads]; [apply mapM_Some in Hm; inversion Hm|].
    cbn [common_loop].
    destruct (forallb (λ c, String.eqb c h) (h :: heads)) eqn:Hall;
      cbn [negb].
    + pose proof (all_equal_heads h _ _ Hm Hall) as Hh.
      destruct (Hh first) as [k ->]; [left|].
      cbn [fmap list_fmap tail app].
      destruct (IH (length k) ltac:(cbn; lia) k (tail <$> rest) eq_refl)
        as [Hpre Hmax].
      split.
      * intros cs Hcs. destruct (Hh cs Hcs) as [t ->].
        destruct (Hpre t) as [u Hu].
        { apply elem_of_cons in Hcs as [Hcs|Hcs].
          - injection Hcs as ->. left.
          - right. apply list_elem_of_fmap. by exists ([h] ++ t). }
        exists u. cbn. by rewrite Hu.
      * intros [c Hc]. destruct Hmax. exists c. intros ts Hts.
        assert (∃ cs, cs ∈ (h :: k) :: rest ∧ ts = tail cs) as (cs & Hcs & ->).
        { apply elem_of_cons in Hts as [->|Hts].
          - exists (h :: k). split; [left|done].
          - apply list_elem_of_fmap in Hts as (cs & -> & Hcs).
            exists cs. split; [by right|done]. }
        destruct (Hc cs Hcs) as [u ->]. by exists u.
    + split; [intros; apply prefix_nil|]. intros [c Hc].
      rewrite (heads_agree c _ Hc) in Hm. injection Hm as <- <-.
      by rewrite all_equal_const in Hall.
  - split; [intros; apply prefix_nil|]. intros [c Hc].
    by rewrite (heads_agree c _ Hc) in Hm.
Qed.

(** X6: for two paths or more, the longest run of leading components on
    which all the paths agree exists and is unique, and
    [_commonpath_polyfill] returns the join of this run, the separator being
    added to its first component, or, when the run is empty, raises the
    [ValueError] of paths without a common ancestor: it raises nothing
    else and logs nothing. *)
Theorem commonpath_polyfill_longest (P : Platform) (paths : list string) :
  (2 ≤ length paths)%nat →
  ∃ common,
    leading_agreement (_split_path_components P <$> paths) common
    ∧ (∀ common',
         leading_agreement (_split_path_components P <$> paths) common' →
         common' = common)
    ∧ _commonpath_polyfill P paths
      = match common with
        | [] => raise (ValueError "Paths do not have a common ancestor")
        | first :: rest =>
            mret (os_path_join P (first +:+ String (os_sep P) "") rest)
        end.
Proof.
  intros Hlen.
  assert (Hne : _split_path_components P <$> paths ≠ [])
    by (destruct paths; [cbn in Hlen; lia|done]).
  exists (common_loop (zip_star (_split_path_components P <$> paths))).
  split; [by apply common_loop_is_agreement|]. split.
  - intros common' H'. symmetry. by apply common_loop_agreement.
  - apply commonpath_polyfill_agreement; [done|].
    by apply common_loop_is_agreement.
Qed.

Lemma commonpath_polyfill_longest_witness :
  ∃ common,
    leading_agreement
      (_split_path_components posix <$> ["/usr/lib"; "/usr/bin"; "/usr"]) common
    ∧ (∀ common',
         leading_agreement
           (_split_path_components posix <$> ["/usr/lib"; "/usr/bin"; "/usr"])
           common' →
         common' = common)
    ∧ _commonpath_polyfill posix ["/usr/lib"; "/usr/bin"; "/usr"]
      = match common with
        | [] => raise (ValueError "Paths do not have a common ancestor")
        | first :: rest =>
            mret (os_path_join posix (first +:+ String (os_sep posix) "") rest)
        end.
Proof.
  apply (commonpath_polyfill_longest posix ["/usr/lib"; "/usr/bin"; "/usr"]).
  cbn. lia.
Defined.

(** X7: the common ancestor does not depend on the order of the paths. *)
Theorem commonpath_polyfill_permutation (P : Platform)
    (paths paths' : list string) :
  paths ≡ₚ paths' →
  _commonpath_polyfill P paths = _commonpath_polyfill P paths'.
Proof.
  intros Hp. destruct (decide (2 ≤ length paths)%nat) as [Hlen|Hlen].
  - assert (Hne : _split_path_components P <$> paths ≠ [])
      by (destruct paths; [cbn in Hlen; lia|done]).
    pose proof (common_loop_is_agreement _ Hne) as Hagree.
    set (common := common_loop (zip_star (_split_path_components P <$> paths)))
      in Hagree.
    rewrite (commonpath_polyfill_agreement P paths common Hlen Hagree).
    symmetry. apply commonpath_polyfill_agreement.
    + by rewrite <- (Permutation_length Hp).
    + destruct Hagree as [Hpre Hmax]. split.
      * intros cs Hcs. apply Hpre.
        apply list_elem_of_fmap in Hcs as (p & -> & Hin).
        apply list_elem_of_fmap. exists p. split; [done|].
        apply list_elem_of_In. apply (Permutation_in p (Permutation_sym Hp)).
        by apply list_elem_of_In.
      * intros [c Hc]. destruct Hmax. exists c. intros cs Hcs. apply Hc.
        apply list_elem_of_fmap in Hcs as (p & -> & Hin).
        apply list_elem_of_fmap. exists p. split; [done|].
        apply list_elem_of_In. apply (Permutation_in p Hp).
        by apply list_elem_of_In.
  - destruct paths as [|p1 [|p2 paths]]; [| |cbn in Hlen; lia].
    + by apply Permutation_nil in Hp as ->.
    + by apply Permutation_length_1_inv in Hp as ->.
Qed.

Lemma commonpath_polyfill_permutation_witness :
  _commonpath_polyfill posix ["/usr/lib"; "/usr/bin"; "/usr/lib/python"]
  = _commonpath_polyfill posix ["/usr/lib/python"; "/usr/lib"; "/usr/bin"].
Proof.
  apply (commonpath_polyfill_permutation posix
           ["/usr/lib"; "/usr/bin"; "/usr/lib/python"]
           ["/usr/lib/python"; "/usr/lib"; "/usr/bin"]).
  symmetry.
  apply (Permutation_cons_append ["/usr/lib"; "/usr/bin"] "/usr/lib/python").
Defined.

(** X8: [get_common_ancestor] raises nothing and logs nothing, whatever the
    paths and the platform: it returns what [_commonpath_polyfill] returns,
    and the default of its caller when [_commonpath_polyfill] raises. *)
Theorem get_common_ancestor_returns (P : Platform) (paths : list string)
    (default : option string) :
  ∃ result,
    get_common_ancestor P paths default = mret result
    ∧ match _commonpath_polyfill P paths with
      | (_, inr common_path) => result = Some common_path
      | (_, inl _) => result = default
      end.
Proof.
  unfold get_common_ancestor.
  destruct paths as [|p1 [|p2 paths]]; [by eexists..|].
  unfold _commonpath_polyfill.
  destruct (common_loop _) as [|first rest]; by eexists.
Qed.

(** ** The common ancestor of the entries of a directory *)

Lemma split_app_sep (sep : ascii) (a b : string) :
  split sep (a +:+ String sep b) = split sep a ++ split sep b.
Proof.
  induction a as [|c a IH].
  - rewrite append_nil_l. cbn. by rewrite Ascii.eqb_refl.
  - rewrite append_cons. cbn [split]. rewrite IH.
    pose proof (split_not_nil sep a) as Hne.
    destruct (Ascii.eqb c sep); [done|].
    by destruct (split sep a).
Qed.

Lemma startswith_absent (c : ascii) (s : string) :
  occurs c s = false → startswith s (String c "") = false.
Proof.
  destruct s as [|x s]; [done|]. cbn. intros H.
  apply orb_false_iff in H as [Hx _].
  destruct (ascii_dec c x) as [->|]; [by rewrite Ascii.eqb_refl in Hx|].
  done.
Qed.

(** [posixpath.join] of a path that does not end in the separator and of
    components. *)
Lemma join_loop_components (rest : list string) (path : string) :
  path ≠ "" → endswith path "/" = false →
  (∀ c, c ∈ rest → c ≠ "" ∧ occurs "/" c = false) →
  posixpath.join_loop path rest = join "/" (path :: rest).
Proof.
  revert path. induction rest as [|b rest IH]; intros path Hne Hend Hrest;
    [done|].
  destruct (Hrest b) as [Hb Hsep]; [left|].
  cbn [posixpath.join_loop].
  rewrite (startswith_absent "/" b Hsep). unfold posixpath.sep.
  rewrite Hend. destruct (String.eqb_spec path "") as [|_]; [done|].
  cbn [orb]. rewrite IH.
  - rewrite join_cons. destruct rest as [|r rest]; [done|].
    rewrite !join_cons. by rewrite !append_assoc.
  - by destruct path.
  - rewrite append_cons, append_nil_l. by apply endswith_component.
  - intros c Hc. apply Hrest. by right.
Qed.

(** [posixpath.join] of a first component with the separator and of the
    components after it. *)
Lemma join_loop_first (first : string) (rest : list string) :
  (∀ c, c ∈ rest → c ≠ "" ∧ occurs "/" c = false) →
  posixpath.join_loop (first +:+ "/") rest
  = match rest with
    | [] => first +:+ "/"
    | _ => join "/" (first :: rest)
    end.
Proof.
  intros Hrest. destruct rest as [|b rest]; [done|].
  destruct (Hrest b) as [Hb Hsep]; [left|].
  cbn [posixpath.join_loop].
  rewrite (startswith_absent "/" b Hsep). unfold posixpath.sep.
  rewrite endswith_snoc, Ascii.eqb_refl, orb_true_r.
  rewrite join_loop_components.
  - rewrite !join_cons. destruct rest as [|r rest].
    + by rewrite append_assoc.
    + rewrite !join_cons. by rewrite !append_assoc.
  - by destruct first.
  - rewrite append_assoc, append_cons, append_nil_l.
    by apply endswith_component.
  - intros c Hc. apply Hrest. by right.
Qed.

Lemma entry_components (dir name : string) :
  occurs "/" name = false →
  _split_path_components posix (entry_path dir name)
  = split "/" dir ++ [name].
Proof.
  intros Hname. unfold _split_path_components, entry_path. cbn.
  rewrite append_cons, append_nil_l, split_app_sep.
  by rewrite (split_no_sep "/" name Hname).
Qed.

(** X9: on POSIX, the common ancestor of two or more entries of a
    directory [dir], not all of the same name, is [dir] itself, when [dir]
    has no doubled and no trailing separator; but a [dir] of one component,
    which holds no separator, comes back with a separator after it, and for
    the entries of the root, where [dir] is empty, this is the root. *)
Theorem commonpath_polyfill_siblings (dir : string) (names : list string) :
  names_ancestor dir = true →
  (2 ≤ length names)%nat →
  (∀ name, name ∈ names → occurs "/" name = false) →
  (∃ a b, a ∈ names ∧ b ∈ names ∧ a ≠ b) →
  _commonpath_polyfill posix (entry_path dir <$> names)
  = mret (if occurs "/" dir then dir else dir +:+ "/").
Proof.
  intros Hdir Hlen Hnames (a & b & Ha & Hb & Hab).
  rewrite (commonpath_polyfill_agreement posix _ (split "/" dir)).
  - pose proof (join_split "/" dir) as Hjoin.
    pose proof (split_components_free "/" dir) as Hfree.
    unfold names_ancestor in Hdir.
    destruct (split "/" dir) as [|first rest] eqn:Hsplit;
      [by apply split_not_nil in Hsplit|].
    cbn [tail] in Hdir. cbn [os_path_join os_sep posix].
    unfold posixpath.join, posixpath.sep. rewrite join_loop_first.
    + f_equal. destruct rest as [|c rest].
      * cbn in Hjoin. subst first.
        by rewrite (Hfree dir) by left.
      * rewrite Hjoin. destruct (occurs "/" dir) eqn:Hocc; [done|].
        by rewrite (split_no_sep "/" dir Hocc) in Hsplit.
    + intros c Hc. split.
      * intros ->. apply list_elem_of_In in Hc.
        by pose proof (proj1 (forallb_forall _ _) Hdir _ Hc).
      * apply Hfree. by right.
  - by rewrite length_fmap.
  - split.
    + intros cs Hcs. apply list_elem_of_fmap in Hcs as (p & -> & Hp).
      apply list_elem_of_fmap in Hp as (name & -> & Hname).
      rewrite entry_components by (by apply Hnames). by eexists.
    + intros [c Hc].
      assert (∀ name, name ∈ names → c = name) as Heq.
      { intros name Hname.
        destruct (Hc (_split_path_components posix (entry_path dir name)))
          as [k Hk].
        { apply list_elem_of_fmap. eexists. split; [done|].
          apply list_elem_of_fmap. eauto. }
        rewrite entry_components, <- app_assoc in Hk by (by apply Hnames).
        apply app_inv_head in Hk. by injection Hk as ->. }
      apply Hab. by rewrite <- (Heq a Ha), <- (Heq b Hb).
Qed.

Lemma commonpath_polyfill_siblings_witness :
  _commonpath_polyfill posix (entry_path "/usr/lib" <$> ["python"; "ruby"])
  = mret (if occurs "/" "/usr/lib" then "/usr/lib" else "/usr/lib" +:+ "/").
Proof.
  apply (commonpath_polyfill_siblings "/usr/lib" ["python"; "ruby"]).
  - reflexivity.
  - cbn. lia.
  - intros name Hname.
    apply elem_of_cons in Hname as [->|Hname]; [reflexivity|].
    by apply list_elem_of_singleton in Hname as ->.
  - exists "python", "ruby". split; [left|]. split; [right; left|done].
Defined.

(** ** The lookup of a binary *)

Lemma next_filter_cases (E : Environment) (paths : list string) :
  (∃ before p after,
     paths = before ++ p :: after
     ∧ (∀ q, q ∈ before → regular_file E q = false)
     ∧ regular_file E p = true)
  ∨ (∀ q, q ∈ paths → regular_file E q = false).
Proof.
  induction paths as [|x paths IH].
  - right. intros q Hq. by apply elem_of_nil in Hq.
  - destruct (regular_file E x) eqn:Hx.
    + left. exists [], x, paths. split; [done|]. split; [|done].
      intros q Hq. by apply elem_of_nil in Hq.
    + destruct IH as [(before & p & after & -> & Hb & Hp)|Hnone].
      * left. exists (x :: before), p, after. split; [done|].
        split; [|done]. intros q Hq.
        apply elem_of_cons in Hq as [->|Hq]; [done|by apply Hb].
      * right. intros q Hq.
        apply elem_of_cons in Hq as [->|Hq]; [done|by apply Hnone].
Qed.

(** The two outcomes of the lookup of a relative [binpath]. *)
Lemma resolve_binary_path_cases (P : Platform) (E : Environment)
    (binpath : string) (workingdir : option string) (pathdirs : list string) :
  os_path_isabs P binpath = false →
  (∃ before p after,
     candidate_paths P binpath (search_directories P E workingdir pathdirs)
       = before ++ p :: after
     ∧ (∀ q, q ∈ before → regular_file E q = false)
     ∧ regular_file E p = true
     ∧ resolve_binary_path P E binpath workingdir pathdirs
       = (path_warning E pathdirs, inr (Some p)))
  ∨ ((∀ q, q ∈ candidate_paths P binpath
                  (search_directories P E workingdir pathdirs) →
           regular_file E q = false)
     ∧ resolve_binary_path P E binpath workingdir pathdirs
       = (path_warning E pathdirs,
          inl (TypeError
                 "stat: path should be string, bytes, os.PathLike or integer, not NoneType"))).
Proof.
  intros Hrel.
  destruct (next_filter_cases E
              (candidate_paths P binpath
                 (search_directories P E workingdir pathdirs)))
    as [(before & p & after & Hc & Hb & Hp)|Hnone].
  - left. exists before, p, after. repeat split; try done.
    by apply (resolve_binary_path_first_file P E binpath workingdir pathdirs
                before after p).
  - right. split; [done|]. by apply resolve_binary_path_exhausted.
Qed.

(** X10: [resolve_binary_path] returns [None] for no binary, no working
    directory, no search directories, no platform and no file system: the
    result announced for a binary that is not found is never produced. *)
Theorem resolve_binary_path_never_none (P : Platform) (E : Environment)
    (binpath : string) (workingdir : option string) (pathdirs : list string)
    (records : list record) :
  resolve_binary_path P E binpath workingdir pathdirs ≠ (records, inr None).
Proof.
  destruct (os_path_isabs P binpath) eqn:Habs.
  - by rewrite resolve_binary_path_absolute.
  - destruct (resolve_binary_path_cases P E binpath workingdir pathdirs Habs)
      as [(before & p & after & _ & _ & _ & ->)|[_ ->]]; congruence.
Qed.

(** X11: what [resolve_binary_path] returns for a relative [binpath] is a
    regular file, and the first one among the candidates, in the order in
    which they are probed; the only log record is the warning about an
    unreadable [PATH]. *)
Theorem resolve_binary_path_returns_file (P : Platform) (E : Environment)
    (binpath : string) (workingdir : option string) (pathdirs : list string)
    (records : list record) (result : option string) :
  os_path_isabs P binpath = false →
  resolve_binary_path P E binpath workingdir pathdirs = (records, inr result) →
  records = path_warning E pathdirs
  ∧ ∃ before p after,
      result = Some p
      ∧ regular_file E p = true
      ∧ candidate_paths P binpath (search_directories P E workingdir pathdirs)
        = before ++ p :: after
      ∧ ∀ q, q ∈ before → regular_file E q = false.
Proof.
  intros Hrel Hres.
  destruct (resolve_binary_path_cases P E binpath workingdir pathdirs Hrel)
    as [(before & p & after & Hc & Hb & Hp & H)|[_ H]];
    rewrite H in Hres; [|discriminate Hres].
  injection Hres as <- <-. split; [done|]. by exists before, p, after.
Qed.

Lemma resolve_binary_path_returns_file_witness :
  [] = path_warning example_environment_python []
  ∧ ∃ before p after,
      Some "/usr/bin/python" = Some p
      ∧ regular_file example_environment_python p = true
      ∧ candidate_paths posix "python"
          (search_directories posix example_environment_python None [])
        = before ++ p :: after
      ∧ ∀ q, q ∈ before → regular_file example_environment_python q = false.
Proof.
  apply (resolve_binary_path_returns_file posix example_environment_python
           "python" None []); reflexivity.
Defined.

(** X12: when neither name of the interpreter is an absolute path and the
    empty path is no regular file, every path that
    [default_python_binary_path] returns is a regular file: the best effort
    of its last line, the bare name of the interpreter, is never returned. *)
Theorem default_python_binary_path_is_file (P : Platform) (E : Environment)
    (records : list record) (path : string) :
  os_path_isabs P "pythonw" = false →
  os_path_isabs P "python" = false →
  regular_file E "" = false →
  default_python_binary_path P E = (records, inr path) →
  regular_file E path = true.
Proof.
  intros Hw Hp Hempty. unfold default_python_binary_path.
  assert (Hpython :
    ∀ l,
      py_bind (l, inr tt)
        (λ _,
           python_binpath ← resolve_binary_path P E "python" None [];
           match python_binpath with
           | Some (String c rest) => mret (String c rest)
           | _ => mret "python"
           end) = (records, inr path) →
      regular_file E path = true).
  { intros l.
    destruct (resolve_binary_path_cases P E "python" None [] Hp)
      as [(before & p & after & _ & _ & Hfile & ->)|[_ ->]]; [|done].
    destruct p as [|c rest]; [congruence|]. cbn.
    intros [= _ <-]. done. }
  destruct (String.eqb (os_name P) "nt").
  - destruct (resolve_binary_path_cases P E "pythonw" None [] Hw)
      as [(before & p & after & _ & _ & Hfile & ->)|[_ ->]]; [|done].
    destruct p as [|c rest]; [congruence|]. cbn.
    intros [= _ <-]. done.
  - intros H. apply (Hpython []). exact H.
Qed.

Lemma default_python_binary_path_is_file_witness :
  default_python_binary_path posix example_environment_python
    = mret "/usr/bin/python"
  ∧ regular_file example_environment_python "/usr/bin/python" = true.
Proof.
  split; [reflexivity|].
  apply (default_python_binary_path_is_file posix example_environment_python
           [] "/usr/bin/python"); reflexivity.
Defined.

(** X13: when no candidate for the name that is looked up first, [pythonw]
    on Windows and [python] elsewhere, is a regular file,
    [default_python_binary_path] raises a [TypeError]: it does not return
    the bare name of the interpreter and, on Windows, it does not go on to
    look [python] up. *)
Theorem default_python_binary_path_not_found (P : Platform) (E : Environment) :
  os_path_isabs P (preferred_python P) = false →
  (∀ q, q ∈ candidate_paths P (preferred_python P)
                (search_directories P E None []) →
        regular_file E q = false) →
  default_python_binary_path P E
  = (path_warning E [],
     inl (TypeError
            "stat: path should be string, bytes, os.PathLike or integer, not NoneType")).
Proof.
  unfold preferred_python, default_python_binary_path.
  destruct (String.eqb (os_name P) "nt"); intros Hrel Hnone;
    by rewrite (resolve_binary_path_exhausted P E _ None [] Hrel Hnone).
Qed.

Lemma default_python_binary_path_not_found_witness :
  default_python_binary_path posix example_environment
  = (path_warning example_environment [],
     inl (TypeError
            "stat: path should be string, bytes, os.PathLike or integer, not NoneType")).
Proof.
  apply (default_python_binary_path_not_found posix example_environment);
    [reflexivity|]. intros q _. reflexivity.
Defined.

(** ** The path of an unknown configuration file *)

Lemma any_star_none {A} (k : string → option A) (s : string) :
  (∀ pre t, s = pre +:+ t → k t = None) → any_star k s = None.
Proof.
  induction s as [|c s IH]; intros Hk.
  - cbn. by apply (Hk "").
  - cbn [any_star]. rewrite IH.
    + rewrite (Hk "" (String c s)) by done. by destruct (Ascii.eqb c newline).
    + intros pre t ->. by apply (Hk (String c pre)).
Qed.

Lemma any_star_sound {A} (k : string → option A) (s : string) (a : A) :
  any_star k s = Some a → ∃ pre post, s = pre +:+ post ∧ k post = Some a.
Proof.
  induction s as [|c s IH]; cbn [any_star]; intros H.
  - by exists "", "".
  - destruct (Ascii.eqb c newline); [by exists "", (String c s)|].
    destruct (any_star k s) as [a'|] eqn:Hs.
    + injection H as <-. destruct (IH eq_refl) as (pre & post & -> & Hk).
      by exists (String c pre), post.
    + by exists "", (String c s).
Qed.

(** The end of the pattern, the text ". Load?", matches no text that does
    not begin with it, and a text that begins with it only there. *)
Lemma re_load_sound {A} (t : string) (caps : list string)
    (k : string → list string → option A) (a : A) :
  re_run (re_lit ". Load" (Chr "?")) t caps k = Some a →
  ∃ rest, t = ". Load?" +:+ rest ∧ k rest caps = Some a.
Proof.
  cbn [re_lit re_run]. intros H.
  destruct t as [|c1 t]; [done|].
  destruct (Ascii.eqb_spec c1 ".") as [->|]; [|done].
  destruct t as [|c2 t]; [done|].
  destruct (Ascii.eqb_spec c2 " ") as [->|]; [|done].
  destruct t as [|c3 t]; [done|].
  destruct (Ascii.eqb_spec c3 "L") as [->|]; [|done].
  destruct t as [|c4 t]; [done|].
  destruct (Ascii.eqb_spec c4 "o") as [->|]; [|done].
  destruct t as [|c5 t]; [done|].
  destruct (Ascii.eqb_spec c5 "a") as [->|]; [|done].
  destruct t as [|c6 t]; [done|].
  destruct (Ascii.eqb_spec c6 "d") as [->|]; [|done].
  destruct t as [|c7 t]; [done|].
  destruct (Ascii.eqb_spec c7 "?") as [->|]; [|done].
  by exists t.
Qed.

Lemma re_load_complete {A} (rest : string) (caps : list string)
    (k : string → list string → option A) :
  re_run (re_lit ". Load" (Chr "?")) (". Load?" +:+ rest) caps k = k rest caps.
Proof. reflexivity. Qed.

Lemma re_lit_matches {A} (lit : string) (r : regex) (s : string)
    (caps : list string) (k : string → list string → option A) :
  re_run (re_lit lit r) (lit +:+ s) caps k = re_run r s caps k.
Proof.
  induction lit as [|c lit IH]; [done|].
  rewrite append_cons. cbn [re_lit re_run]. by rewrite Ascii.eqb_refl.
Qed.

(** The greedy group stops at the last ". Load?" of the line; with no
    question mark after the first one, this is the first one. *)
Lemma any_star_load {A} (k : string → option A) (post : string) :
  (∀ t, (∀ rest, t ≠ ". Load?" +:+ rest) → k t = None) →
  occurs "?" post = false →
  any_star k (". Load?" +:+ post) = k (". Load?" +:+ post).
Proof.
  intros Hk Hpost. rewrite !append_cons, !append_nil_l.
  cbn [any_star Ascii.eqb Bool.eqb newline].
  rewrite (any_star_none k post).
  - by rewrite !Hk by (intros rest H; rewrite !append_cons in H;
                       discriminate H).
  - intros pre t ->. apply Hk. intros rest ->.
    rewrite occurs_append in Hpost. apply orb_false_iff in Hpost as [_ H].
    by rewrite !append_cons in H.
Qed.

Lemma re_found_matches (path post : string) :
  occurs newline path = false →
  occurs "?" post = false →
  re_match re_found ("Found " +:+ path +:+ ". Load?" +:+ post) = Some [path].
Proof.
  intros Hpath Hpost. unfold re_match, re_found.
  rewrite re_lit_matches. cbn [re_run].
  apply any_star_skip; [done|].
  rewrite any_star_load; [|intros t Ht|done].
  - rewrite re_load_complete. cbn [app]. f_equal. f_equal.
    rewrite length_append, Nat.add_sub. apply str_take_append.
  - destruct (re_run (re_lit ". Load" (Chr "?")) t _ _) as [a|] eqn:H;
      [|done].
    apply re_load_sound in H as (rest & -> & _). by destruct (Ht rest).
Qed.

Lemma re_lit_sound {A} (lit : string) (r : regex) (s : string)
    (caps : list string) (k : string → list string → option A) (a : A) :
  re_run (re_lit lit r) s caps k = Some a →
  ∃ rest, s = lit +:+ rest ∧ re_run r rest caps k = Some a.
Proof.
  revert s. induction lit as [|c lit IH]; intros s H; [by exists s|].
  cbn [re_lit re_run] in H. destruct s as [|c' s]; [done|].
  destruct (Ascii.eqb_spec c' c) as [->|]; [|done].
  destruct (IH s H) as (rest & -> & Hrest). by exists rest.
Qed.

Lemma re_found_sound (s : string) (groups : list string) :
  re_match re_found s = Some groups →
  ∃ path rest,
    groups = [path] ∧ s = "Found " +:+ path +:+ ". Load?" +:+ rest.
Proof.
  unfold re_match, re_found. intros H.
  apply re_lit_sound in H as (s0 & -> & H). cbn [re_run] in H.
  apply any_star_sound in H as (pre & post & -> & H). cbn beta in H.
  apply (re_load_sound post) in H as (rest & -> & H).
  injection H as <-. exists pre, rest. split; [|done].
  cbn [app]. f_equal. rewrite length_append, Nat.add_sub.
  apply str_take_append.
Qed.

Lemma re_search_sound (r : regex) (s : string) (groups : list string) :
  re_search r s = Some groups →
  ∃ skipped t, s = skipped +:+ t ∧ re_match r t = Some groups.
Proof.
  induction s as [|c s IH]; cbn [re_search]; intros H.
  - destruct (re_match r "") eqn:Hm; [|done]. injection H as <-.
    by exists "", "".
  - destruct (re_match r (String c s)) eqn:Hm.
    + injection H as <-. by exists "", (String c s).
    + destruct (IH H) as (skipped & t & -> & Ht).
      by exists (String c skipped), t.
Qed.

Lemma re_search_first (r : regex) (s : string) (groups : list string) :
  re_match r s = Some groups → re_search r s = Some groups.
Proof. intros H. destruct s; cbn [re_search]; by rewrite H. Qed.

(** X14: for an entry of type [UnknownExtraConf] whose message is the
    question of ycmd about a configuration file, the text "Found ", a path
    on one line, the text ". Load?" and whatever follows without a further
    question mark, [unknown_extra_conf_path] returns the path, and logs
    nothing. *)
Theorem unknown_extra_conf_path_found (self : DiagnosticError.t)
    (path post : string) :
  DiagnosticError._exception_type self = VStr "UnknownExtraConf" →
  DiagnosticError._message self
    = VStr ("Found " +:+ path +:+ ". Load?" +:+ post) →
  occurs newline path = false →
  occurs "?" post = false →
  DiagnosticError.unknown_extra_conf_path self = mret (VStr path).
Proof.
  intros Htype Hmessage Hpath Hpost.
  unfold DiagnosticError.unknown_extra_conf_path,
    DiagnosticError.is_unknown_extra_conf.
  rewrite Htype, Hmessage.
  rewrite (re_search_first _ _ _ (re_found_matches path post Hpath Hpost)).
  by rewrite !append_cons, append_nil_l.
Qed.

Lemma unknown_extra_conf_path_found_witness :
  DiagnosticError.unknown_extra_conf_path example_unknown_extra_conf
  = mret (VStr "/home/user/project/.ycm_extra_conf.py").
Proof.
  apply (unknown_extra_conf_path_found example_unknown_extra_conf
           "/home/user/project/.ycm_extra_conf.py"
           (String " " (String newline (String newline
              "(Question can be turned off with options, see YCM docs)"))));
    reflexivity.
Defined.

(** X15: a path that [unknown_extra_conf_path] returns is read off the
    message: the entry is of type [UnknownExtraConf], its message is a
    [str], and the text "Found ", the path, ". Load?" stands in the
    message; nothing is logged. *)
Theorem unknown_extra_conf_path_sound (self : DiagnosticError.t)
    (records : list record) (path : string) :
  DiagnosticError.unknown_extra_conf_path self = (records, inr (VStr path)) →
  records = []
  ∧ DiagnosticError._exception_type self = VStr "UnknownExtraConf"
  ∧ ∃ message,
      DiagnosticError._message self = VStr message
      ∧ contains ("Found " +:+ path +:+ ". Load?") message = true.
Proof.
  unfold DiagnosticError.unknown_extra_conf_path,
    DiagnosticError.is_unknown_extra_conf, DiagnosticError.UNKNOWN_EXTRA_CONF.
  destruct (DiagnosticError._exception_type self) as [ | | | |ty| | | | ];
    try done.
  cbn [eq_str]. destruct (String.eqb_spec ty "UnknownExtraConf") as [->|];
    [|done].
  destruct (truthy (DiagnosticError._message self)) eqn:Htrue; [|done].
  destruct (DiagnosticError._message self) as [ | | | |message| | | | ];
    try done.
  destruct (re_search re_found message) as [[|group1 groups]|] eqn:Hs;
    cbn; try done.
  intros [= <- <-]. split; [done|]. split; [done|].
  exists message. split; [done|].
  apply re_search_sound in Hs as (skipped & t & -> & Hm).
  apply re_found_sound in Hm as (p & rest & [= -> ->] & ->).
  apply contains_spec. exists skipped, rest.
  by rewrite !append_assoc.
Qed.

Lemma unknown_extra_conf_path_sound_witness :
  [] = @nil record
  ∧ DiagnosticError._exception_type example_unknown_extra_conf
    = VStr "UnknownExtraConf"
  ∧ ∃ message,
      DiagnosticError._message example_unknown_extra_conf = VStr message
      ∧ contains ("Found " +:+ "/home/user/project/.ycm_extra_conf.py"
                  +:+ ". Load?") message = true.
Proof.
  apply (unknown_extra_conf_path_sound example_unknown_extra_conf []
           "/home/user/project/.ycm_extra_conf.py").
  reflexivity.
Defined.

(** ** The insertion text of any entry *)

Lemma append_nil_r (a : string) : a +:+ "" = a.
Proof. induction a as [|c a IH]; [done|]. by rewrite append_cons, IH. Qed.

Lemma re_call_none (menu_text : string) :
  occurs "(" menu_text = false → re_match re_call menu_text = None.
Proof.
  intros H. unfold re_match, re_call. cbn [re_run].
  apply any_star_no_paren; [|done].
  intros t Ht. destruct t as [|c t]; [done|].
  destruct (Ascii.eqb_spec c "(") as [->|]; [by destruct (Ht t)|done].
Qed.

Lemma re_call_params_needs_call (menu_text : string) :
  occurs "(" menu_text = false → re_match re_call_params menu_text = None.
Proof.
  intros H. unfold re_match, re_call_params. cbn [re_run].
  apply any_star_no_paren; [|done].
  intros t Ht. destruct t as [|c t]; [done|].
  destruct (Ascii.eqb_spec c "(") as [->|]; [by destruct (Ht t)|done].
Qed.

(** X16: for an entry whose insertion text is true, and whose menu text is
    false or is a [str] without an opening parenthesis, [text] returns the
    insertion text as it is, of whatever type, and logs nothing. *)
Theorem text_without_call (self : CompletionOption.t) :
  truthy (CompletionOption._insertion_text self) = true →
  (truthy (CompletionOption._menu_text self) = false
   ∨ ∃ menu_text,
       CompletionOption._menu_text self = VStr menu_text
       ∧ occurs "(" menu_text = false) →
  CompletionOption.text self = mret (CompletionOption._insertion_text self).
Proof.
  intros Hins Hmenu. unfold CompletionOption.text.
  destruct Hmenu as [Hfalse|(menu_text & Hmenu & Hcall)].
  - rewrite Hfalse. cbn. by rewrite Hins.
  - rewrite Hmenu, (re_call_none menu_text Hcall).
    destruct (truthy (VStr menu_text)); cbn; by rewrite Hins.
Qed.

Lemma text_without_call_witness :
  CompletionOption.text example_untagged_option
  = mret (CompletionOption._insertion_text example_untagged_option).
Proof.
  apply (text_without_call example_untagged_option); [reflexivity|].
  right. exists "foo". split; reflexivity.
Defined.

(** X17: for an entry whose menu text is [None] or a [str] and whose
    insertion text is a [str] that is not empty, [text] raises nothing,
    logs nothing and returns a [str] that begins with the insertion text;
    what follows it is empty or is put in parentheses. *)
Theorem text_begins_with_insertion (self : CompletionOption.t)
    (insertion_text : string) :
  is_none (CompletionOption._menu_text self)
  || is_str (CompletionOption._menu_text self) = true →
  CompletionOption._insertion_text self = VStr insertion_text →
  insertion_text ≠ "" →
  ∃ completion,
    CompletionOption.text self = mret (VStr (insertion_text +:+ completion))
    ∧ (completion = ""
       ∨ ∃ params, completion = "(" +:+ params +:+ ")").
Proof.
  intros Hmenu Hins Hne. unfold CompletionOption.text. rewrite Hins.
  assert (Htrue : truthy (VStr insertion_text) = true).
  { cbn. by destruct (String.eqb_spec insertion_text ""). }
  rewrite Htrue.
  destruct (CompletionOption._menu_text self)
    as [ | | | |menu_text| | | | ]; try done.
  - exists "". rewrite append_nil_r. split; [done|by left].
  - destruct (truthy (VStr menu_text)).
    + destruct (bool_decide (is_Some (re_match re_call menu_text))).
      * eexists. split; [reflexivity|]. right. by eexists.
      * exists "". rewrite append_nil_r. split; [done|by left].
    + exists "". rewrite append_nil_r. split; [done|by left].
Qed.

Lemma text_begins_with_insertion_witness :
  ∃ completion,
    CompletionOption.text example_cpp_option
    = mret (VStr ("size" +:+ completion))
    ∧ (completion = ""
       ∨ ∃ params, completion = "(" +:+ params +:+ ")").
Proof.
  apply (text_begins_with_insertion example_cpp_option "size"); done.
Defined.

(** ** The short description of any entry *)

Lemma has_file_type_untagged (self : CompletionOption.t) (tag : string) :
  truthy (CompletionOption._file_types self) = false →
  CompletionOption._has_file_type self tag
  = (file_type_warning (CompletionOption._file_types self), inr false).
Proof.
  intros H. unfold CompletionOption._has_file_type, file_type_warning.
  rewrite H. by destruct (is_none (CompletionOption._file_types self)).
Qed.

Lemma shortdesc_loop_untagged (self : CompletionOption.t)
    (order : list (string * (value → value → Py value))) :
  truthy (CompletionOption._file_types self) = false →
  CompletionOption.shortdesc_loop self order
  = (order ≫= (λ _, file_type_warning (CompletionOption._file_types self)),
     inr None).
Proof.
  intros H. induction order as [|[file_type handler] order IH]; [done|].
  cbn [CompletionOption.shortdesc_loop].
  rewrite (has_file_type_untagged self file_type H), IH.
  by rewrite bind_cons.
Qed.

(** X18: for an entry whose file types are false ([None], or an empty list
    or tuple) no language handler is called, in whatever order the table is
    iterated: when the common tier draws no verdict, [shortdesc] returns
    the menu info as it is, after one warning for each handler of the table
    when the file types are [None]. *)
Theorem shortdesc_without_file_types (repr : value → string)
    (order : list (string * (value → value → Py value)))
    (self : CompletionOption.t) (menu_info : string) :
  truthy (CompletionOption._file_types self) = false →
  CompletionOption._menu_info self = VStr menu_info →
  menu_info ≠ "" → menu_info ≠ "[ID]" →
  kind_undecided repr (CompletionOption._kind self) = true →
  CompletionOption.shortdesc repr order self
  = (order ≫= (λ _, file_type_warning (CompletionOption._file_types self)),
     inr (VStr menu_info)).
Proof.
  intros Hft Hmi Hne Hid Hkind. unfold CompletionOption.shortdesc.
  rewrite Hmi, (shortdesc_common_undecided repr menu_info _ Hne Hid Hkind).
  cbn. rewrite (shortdesc_loop_untagged self order Hft).
  unfold mbind at 1, Py_bind, py_bind. cbn. by rewrite app_nil_r.
Qed.

Lemma shortdesc_without_file_types_witness :
  CompletionOption.shortdesc example_repr shortdesc_handlers
    example_untagged_option
  = (shortdesc_handlers
       ≫= (λ _, file_type_warning
                  (CompletionOption._file_types example_untagged_option)),
     inr (VStr "def foo")).
Proof.
  apply (shortdesc_without_file_types example_repr shortdesc_handlers
           example_untagged_option "def foo"); done.
Defined.

(** X19: for an entry tagged [cpp] and tagged neither [python] nor
    [javascript], with a kind that is a [str] and not empty, and a menu
    info that is [None] or a [str] other than the marker "[ID]",
    [shortdesc] returns the kind in lower case, in whatever order the table
    of handlers is iterated: the literals of the common tier for a class
    and a macro are the lower-case kinds too. *)
Theorem shortdesc_cpp_kind (repr : value → string)
    (order : list (string * (value → value → Py value)))
    (self : CompletionOption.t) (tags : list value) (kind : string) :
  order ≡ₚ shortdesc_handlers →
  CompletionOption._file_types self = VList tags →
  tagged "cpp" tags = true →
  tagged "python" tags = false →
  tagged "javascript" tags = false →
  CompletionOption._kind self = VStr kind →
  kind ≠ "" →
  (CompletionOption._menu_info self = VNone
   ∨ ∃ menu_info,
       CompletionOption._menu_info self = VStr menu_info
       ∧ menu_info ≠ "[ID]") →
  CompletionOption.shortdesc repr order self = mret (VStr (lower kind)).
Proof.
  intros Hperm Hft Hcpp Hpy Hjs Hkind Hne Hmenu.
  assert (Htags : tags ≠ []) by (by intros ->).
  assert (Htrue : truthy (VStr kind) = true).
  { cbn. by destruct (String.eqb_spec kind ""). }
  assert (Hloop :
    CompletionOption.shortdesc_loop self order
    = mret (Some (VStr (lower kind)))).
  { apply shortdesc_loop_finds; [done| |].
    - intros ft h Hin. rewrite Hperm in Hin.
      rewrite (has_file_type_tagged self tags ft Hft Htags).
      unfold shortdesc_handlers in Hin.
      apply elem_of_cons in Hin as [[= -> ->]|Hin].
      { right. rewrite Hcpp. split; [done|]. right.
        unfold _shortdesc_cpp. by rewrite Hkind, Htrue. }
      apply elem_of_cons in Hin as [[= -> ->]|Hin]; [left; by rewrite Hpy|].
      apply list_elem_of_singleton in Hin as [= -> ->].
      left. by rewrite Hjs.
    - exists "cpp", _shortdesc_cpp. rewrite Hperm.
      rewrite (has_file_type_tagged self tags _ Hft Htags), Hcpp.
      split; [left|]. split; [done|].
      unfold _shortdesc_cpp. by rewrite Hkind, Htrue. }
  unfold CompletionOption.shortdesc, _shortdesc_common.
  rewrite Hkind, Htrue. cbn [py_str negb andb].
  assert (Hmarker :
    truthy (CompletionOption._menu_info self)
    && eq_str (CompletionOption._menu_info self) "[ID]" = false).
  { destruct Hmenu as [->|(menu_info & -> & Hid)]; [done|].
    cbn [eq_str]. destruct (String.eqb_spec menu_info "[ID]"); [done|].
    apply andb_false_r. }
  rewrite Hmarker, andb_false_r.
  assert (is_none (CompletionOption._menu_info self)
          || is_str (CompletionOption._menu_info self) = true) as ->
    by (by destruct Hmenu as [->|(menu_info & -> & _)]).
  destruct (String.eqb_spec (lower kind) "class") as [->|_]; [done|].
  destruct (String.eqb_spec (lower kind) "macro") as [->|_]; [done|].
  cbn. rewrite Hloop. done.
Qed.

Lemma shortdesc_cpp_kind_witness :
  CompletionOption.shortdesc example_repr
    [("python", _shortdesc_python); ("javascript", _shortdesc_javascript);
     ("cpp", _shortdesc_cpp)] example_cpp_option
  = mret (VStr (lower "FUNCTION")).
Proof.
  apply (shortdesc_cpp_kind example_repr _ example_cpp_option [VStr "cpp"]
           "FUNCTION"); try done.
  - symmetry.
    apply (Permutation_cons_append
             [("python", _shortdesc_python);
              ("javascript", _shortdesc_javascript)]
             ("cpp", _shortdesc_cpp)).
  - right. by exists "int".
Defined.

(** X20: the short description of an entry with two languages depends on
    the order in which the table of handlers is iterated: for an entry
    tagged [python] and [javascript] whose menu info begins with "fn" and
    holds " = ", on which the common tier draws no verdict, [shortdesc]
    returns "attr" when the handler of [python] comes first and "fn" when
    that of [javascript] does, whatever handlers follow. *)
Theorem shortdesc_order_dependent (repr : value → string)
    (self : CompletionOption.t) (tags : list value) (menu_info : string)
    (later later' : list (string * (value → value → Py value))) :
  CompletionOption._file_types self = VList tags →
  tagged "python" tags = true →
  tagged "javascript" tags = true →
  CompletionOption._menu_info self = VStr menu_info →
  startswith menu_info "fn" = true →
  contains " = " menu_info = true →
  kind_undecided repr (CompletionOption._kind self) = true →
  CompletionOption.shortdesc repr (("python", _shortdesc_python) :: later) self
    = mret (VStr "attr")
  ∧ CompletionOption.shortdesc repr
      (("javascript", _shortdesc_javascript) :: later') self
    = mret (VStr "fn").
Proof.
  intros Hft Hpy Hjs Hmi Hfn Hassign Hkind.
  assert (Htags : tags ≠ []) by (by intros ->).
  pose proof Hfn as Hpre. apply prefix_spec in Hpre as [post ->].
  assert (Hne : "fn" +:+ post ≠ "") by done.
  assert (Hid : "fn" +:+ post ≠ "[ID]") by done.
  unfold CompletionOption.shortdesc. rewrite Hmi.
  rewrite (shortdesc_common_undecided repr _ _ Hne Hid Hkind).
  cbn [CompletionOption.shortdesc_loop].
  rewrite !(has_file_type_tagged self tags _ Hft Htags), Hpy, Hjs, Hmi.
  unfold _shortdesc_python, _shortdesc_javascript.
  rewrite Hassign, Hfn. split; reflexivity.
Qed.

Lemma shortdesc_order_dependent_witness :
  CompletionOption.shortdesc example_repr
    (("python", _shortdesc_python)
       :: [("javascript", _shortdesc_javascript); ("cpp", _shortdesc_cpp)])
    example_two_languages_option
    = mret (VStr "attr")
  ∧ CompletionOption.shortdesc example_repr
      (("javascript", _shortdesc_javascript)
         :: [("cpp", _shortdesc_cpp); ("python", _shortdesc_python)])
      example_two_languages_option
    = mret (VStr "fn").
Proof.
  apply (shortdesc_order_dependent example_repr example_two_languages_option
           [VStr "javascript"; VStr "python"] "fn = function"); reflexivity.
Defined.

(** ** The parsers on any reply *)

Section parser_further.

Variable json_parse : value → Py value.

Lemma attempt_parse_raises {A} (l : list record) (e : exn) :
  @_attempt_parse A (l, inl e) = (l ++ [attempt_record e], inr None).
Proof.
  unfold _attempt_parse, attempt_record. cbn.
  destruct (exn_isinstance e "ValueError"); [done|].
  by destruct (exn_isinstance e "NotImplementedError").
Qed.

Lemma parse_json_response_raises (json : value) (ignore_errors : bool)
    (l : list record) (e : exn) :
  is_str json || is_bytes json = true →
  json_parse json = (l, inl e) →
  _parse_json_response json_parse json ignore_errors = (l, inl e).
Proof.
  intros Htext Hparse. unfold _parse_json_response.
  rewrite Htext, Hparse. done.
Qed.

Lemma parse_json_response_text (json : value) (ignore_errors : bool)
    (d : gmap string value) :
  is_str json || is_bytes json = true →
  json_parse json = mret (VDict d) →
  _parse_json_response json_parse json ignore_errors
  = _parse_json_response json_parse (VDict d) ignore_errors.
Proof.
  intros Htext Hparse. unfold _parse_json_response.
  rewrite Htext, Hparse. done.
Qed.

(** X21: a reply that is neither a [str], nor [bytes], nor a mapping is
    not fatal: [parse_completions] returns a response whose two halves are
    [None], and logs the [TypeError] of the validation twice, once for
    each half, at the level ERROR. *)
Theorem parse_completions_wrong_type (json : value) (ctx : context) :
  is_str json || is_bytes json || is_dict json = false →
  parse_completions json_parse json ctx
  = ([LogRecord ERROR "error while parsing response: %r"
        (Some (TypeError "json must be a str or dict: %r"));
      LogRecord ERROR "error while parsing response: %r"
        (Some (TypeError "json must be a str or dict: %r"))],
     inr (CompletionResponse.new None None)).
Proof.
  intros Htype. unfold parse_completions, parse_compoptions, parse_diagnostics,
    _parse_json_response.
  rewrite Htype. done.
Qed.

(** X22: when [json_parse] raises on the text of a reply,
    [parse_completions] returns a response whose two halves are [None]; the
    text is parsed twice, once for each half, so that the records of
    [json_parse] and the record of the exception are logged twice, the
    latter at the level WARNING for a [ValueError], as the decoding errors
    of JSON are. *)
Theorem parse_completions_malformed_text (json : value) (ctx : context)
    (l : list record) (e : exn) :
  is_str json || is_bytes json = true →
  json_parse json = (l, inl e) →
  parse_completions json_parse json ctx
  = ((l ++ [attempt_record e]) ++ (l ++ [attempt_record e]),
     inr (CompletionResponse.new None None))
  ∧ (exn_isinstance e "ValueError" = true →
     rec_level (attempt_record e) = WARNING).
Proof.
  intros Htext Hparse. split.
  - unfold parse_completions, parse_compoptions, parse_diagnostics.
    rewrite !(parse_json_response_raises json _ l e Htext Hparse).
    cbn. unfold attempt_record.
    destruct (exn_isinstance e "ValueError");
      [|destruct (exn_isinstance e "NotImplementedError")];
      cbn; by rewrite !app_nil_r.
  - intros Hv. unfold attempt_record. by rewrite Hv.
Qed.

(** X23: a text in which [json_parse] reads a mapping is parsed as the
    mapping itself is. *)
Theorem parse_completions_text_as_mapping (json : value) (ctx : context)
    (d : gmap string value) :
  is_str json || is_bytes json = true →
  json_parse json = mret (VDict d) →
  parse_completions json_parse json ctx
  = parse_completions json_parse (VDict d) ctx.
Proof.
  intros Htext Hparse.
  unfold parse_completions, parse_compoptions, parse_diagnostics.
  by rewrite !(parse_json_response_text json _ d Htext Hparse).
Qed.

(** X24: a reply whose completions are valid and whose
    [completion_start_column] is missing loses its completions:
    [parse_compoptions] raises a [KeyError], which is no [ValueError], so
    that [parse_completions] logs it at the level ERROR and returns a
    response without completions. *)
Theorem parse_completions_without_start_column (reply : gmap string value)
    (nodes : list value) (ctx : context) :
  reply !! "completions" = Some (VList nodes) →
  forallb is_dict nodes = true →
  reply !! "completion_start_column" = None →
  ctx ≠ CtxOther →
  parse_compoptions json_parse (VDict reply) ctx
    = raise (KeyError "completion_start_column")
  ∧ ∃ diagnostics records,
      parse_completions json_parse (VDict reply) ctx
      = (LogRecord ERROR "error while parsing response: %r"
           (Some (KeyError "completion_start_column")) :: records,
         inr (CompletionResponse.new None diagnostics)).
Proof.
  intros Hc Hd Hs Hctx.
  assert (Hraise : parse_compoptions json_parse (VDict reply) ctx
                   = raise (KeyError "completion_start_column")).
  { unfold parse_compoptions, _parse_json_response. cbn.
    rewrite Hc. cbn. rewrite Hd. cbn.
    assert (check_request_parameters ctx = mret tt) as ->
      by (destruct ctx; done).
    cbn. unfold dict_getitem. rewrite Hc, Hs. done. }
  split; [done|]. unfold parse_completions. rewrite Hraise.
  destruct (attempt_parse_downgraded
              (parse_diagnostics json_parse (VDict reply) ctx))
    as (half & records & -> & _).
  exists half, (records ++ []). reflexivity.
Qed.

(** X25: a reply that passes the full validation, which
    [parse_diagnostics] asks for, passes the validation without the check
    of the errors, which [parse_compoptions] asks for, and is read as the
    same mapping; in this mapping [errors] and [completions] are lists of
    mappings. *)
Theorem parse_json_response_validated (json : value) (l : list record)
    (d : gmap string value) :
  _parse_json_response json_parse json false = (l, inr d) →
  _parse_json_response json_parse json true = (l, inr d)
  ∧ (∃ errors,
       d !! "errors" = Some (VList errors) ∧ forallb is_dict errors = true)
  ∧ ∃ completions,
      d !! "completions" = Some (VList completions)
      ∧ forallb is_dict completions = true.
Proof.
  unfold _parse_json_response.
  destruct (negb (is_str json || is_bytes json || is_dict json));
    [intros H; discriminate H|].
  destruct (if is_str json || is_bytes json then json_parse json
            else mret json) as [l0 [e|parsed]]; [intros H; discriminate H|].
  destruct parsed as [ | | | | | | | |parsed];
    try (intros H; discriminate H).
  cbn.
  destruct (parsed !! "errors") as [errors|] eqn:He;
    [|intros H; discriminate H].
  destruct (_is_error_list errors) eqn:Hel; [|intros H; discriminate H].
  cbn.
  destruct (parsed !! "completions") as [completions|] eqn:Hc;
    [|intros H; discriminate H].
  destruct (_is_completions completions) eqn:Hcl;
    [|intros H; discriminate H].
  cbn. intros [= <- <-].
  destruct errors as [ | | | | | |errors| | ]; try done.
  destruct completions as [ | | | | | |completions| | ]; try done.
  split; [done|]. split; by eexists.
Qed.

(** X26: the diagnostics of a valid reply cannot be iterated when they
    have no entry: for an empty list of errors, and also for a list all of
    whose nodes are skipped, [len] is 0 and [iter] raises a [TypeError],
    where an empty iteration may be expected; with an entry or more, [iter]
    yields the entries of the nodes with a type tag, in their order. *)
Theorem parse_diagnostics_iter (reply : gmap string value)
    (completions nodes : list value) (ctx : context) :
  reply !! "completions" = Some (VList completions) →
  forallb is_dict completions = true →
  context_ok ctx = true →
  reply !! "errors" = Some (VList nodes) →
  forallb is_dict nodes = true →
  ∃ records diagnostics,
    parse_diagnostics json_parse (VDict reply) ctx
      = (records, inr diagnostics)
    ∧ Diagnostics.len diagnostics = length (expected_diagnostics nodes)
    ∧ Diagnostics.iter diagnostics
      = match expected_diagnostics nodes with
        | [] =>
            raise (TypeError
                     "iter() returned non-iterator of type 'NoneType'")
        | entries => mret entries
        end.
Proof.
  intros Hc Hcd Hctx He Hed.
  rewrite (parse_diagnostics_returns json_parse reply completions nodes ctx)
    by done.
  unfold expected_diagnostics.
  destruct nodes as [|node nodes]; [by eexists _, _|].
  eexists _, _. split; [done|]. split; [done|].
  unfold Diagnostics.iter. cbn [Diagnostics._diagnostics].
  by destruct (omap expected_diagnostic (node :: nodes)).
Qed.

End parser_further.

Lemma parse_completions_wrong_type_witness :
  parse_completions json_parse_refusing (VList []) CtxNone
  = ([LogRecord ERROR "error while parsing response: %r"
        (Some (TypeError "json must be a str or dict: %r"));
      LogRecord ERROR "error while parsing response: %r"
        (Some (TypeError "json must be a str or dict: %r"))],
     inr (CompletionResponse.new None None)).
Proof.
  apply (parse_completions_wrong_type json_parse_refusing (VList []) CtxNone).
  reflexivity.
Defined.

Lemma parse_completions_malformed_text_witness :
  parse_completions json_parse_refusing (VStr "<html>") CtxNone
  = (([] ++ [attempt_record
               (Exn "JSONDecodeError" ["ValueError"] "Expecting value")])
     ++ ([] ++ [attempt_record
                  (Exn "JSONDecodeError" ["ValueError"] "Expecting value")]),
     inr (CompletionResponse.new None None))
  ∧ (exn_isinstance (Exn "JSONDecodeError" ["ValueError"] "Expecting value")
       "ValueError" = true →
     rec_level
       (attempt_record
          (Exn "JSONDecodeError" ["ValueError"] "Expecting value"))
     = WARNING).
Proof.
  apply (parse_completions_malformed_text json_parse_refusing
           (VStr "<html>") CtxNone []
           (Exn "JSONDecodeError" ["ValueError"] "Expecting value"));
    reflexivity.
Defined.

Lemma parse_completions_text_as_mapping_witness :
  parse_completions (json_parse_reading example_error_reply)
    (VBytes "reply") CtxNone
  = parse_completions (json_parse_reading example_error_reply)
      (VDict example_error_reply) CtxNone.
Proof.
  apply (parse_completions_text_as_mapping
           (json_parse_reading example_error_reply) (VBytes "reply") CtxNone
           example_error_reply); reflexivity.
Defined.

Lemma parse_completions_without_start_column_witness :
  parse_compoptions json_parse_refusing
    (VDict example_reply_without_column) CtxNone
    = raise (KeyError "completion_start_column")
  ∧ ∃ diagnostics records,
      parse_completions json_parse_refusing
        (VDict example_reply_without_column) CtxNone
      = (LogRecord ERROR "error while parsing response: %r"
           (Some (KeyError "completion_start_column")) :: records,
         inr (CompletionResponse.new None diagnostics)).
Proof.
  apply (parse_completions_without_start_column json_parse_refusing
           example_reply_without_column example_completions CtxNone);
    done.
Defined.

Lemma parse_json_response_validated_witness :
  _parse_json_response json_parse_refusing (VDict example_error_reply) true
    = ([], inr example_error_reply)
  ∧ (∃ errors,
       example_error_reply !! "errors" = Some (VList errors)
       ∧ forallb is_dict errors = true)
  ∧ ∃ completions,
      example_error_reply !! "completions" = Some (VList completions)
      ∧ forallb is_dict completions = true.
Proof.
  apply (parse_json_response_validated json_parse_refusing
           (VDict example_error_reply) [] example_error_reply).
  reflexivity.
Defined.

Lemma parse_diagnostics_iter_witness :
  ∃ records diagnostics,
    parse_diagnostics json_parse_refusing (VDict example_error_reply) CtxNone
      = (records, inr diagnostics)
    ∧ Diagnostics.len diagnostics
      = length (expected_diagnostics example_errors)
    ∧ Diagnostics.iter diagnostics
      = match expected_diagnostics example_errors with
        | [] =>
            raise (TypeError
                     "iter() returned non-iterator of type 'NoneType'")
        | entries => mret entries
        end.
Proof.
  apply (parse_diagnostics_iter json_parse_refusing example_error_reply []
           example_errors CtxNone); reflexivity.
Defined.

(** ** The components of a path with two separators *)

Lemma iter_components_step (fuel : nat) (primary secondary : ascii)
    (current_path : string) :
  current_path ≠ "" →
  _iter_components (S fuel) primary secondary current_path
  = let split_position := first_separator primary secondary current_path in
    if (split_position >=? 0)%Z then
      (if (split_position >? 0)%Z
       then str_take (Z.to_nat split_position) current_path else "")
        :: _iter_components fuel primary secondary
             (if (split_position <? Z.of_nat (String.length current_path))%Z
              then str_drop (Z.to_nat (split_position + 1)) current_path
              else "")
    else [current_path].
Proof. intros Hne. by destruct current_path. Qed.

Lemma first_separator_here (primary secondary c : ascii) (rest : string) :
  Ascii.eqb c primary || Ascii.eqb c secondary = true →
  first_separator primary secondary (String c rest) = 0%Z.
Proof.
  unfold first_separator. cbn [find].
  pose proof (find_lower_bound primary rest).
  pose proof (find_lower_bound secondary rest).
  set (primary_position := find primary rest) in *.
  set (secondary_position := find secondary rest) in *.
  destruct (Ascii.eqb c primary), (Ascii.eqb c secondary); try done;
    intros _; cbn zeta;
    destruct (Z.le_gt_cases 0 primary_position);
    destruct (Z.le_gt_cases 0 secondary_position);
    destruct (Z.le_gt_cases primary_position secondary_position);
    rewrite ?Z.geb_leb, ?Z.gtb_ltb;
    repeat (cbn [andb];
            match goal with
            | |- context [(?a <=? ?b)%Z] =>
                first [rewrite (proj2 (Z.leb_le a b)) by lia
                      |rewrite (proj2 (Z.leb_gt a b)) by lia]
            | |- context [(?a <? ?b)%Z] =>
                first [rewrite (proj2 (Z.ltb_lt a b)) by lia
                      |rewrite (proj2 (Z.ltb_ge a b)) by lia]
            end); cbn [andb]; lia.
Qed.

Lemma first_separator_later (primary secondary c : ascii) (rest : string) :
  Ascii.eqb c primary || Ascii.eqb c secondary = false →
  first_separator primary secondary (String c rest)
  = (if (0 <=? first_separator primary secondary rest)%Z
     then first_separator primary secondary rest + 1 else -1)%Z.
Proof.
  unfold first_separator. cbn [find].
  pose proof (find_lower_bound primary rest).
  pose proof (find_lower_bound secondary rest).
  set (primary_position := find primary rest) in *.
  set (secondary_position := find secondary rest) in *.
  destruct (Ascii.eqb c primary), (Ascii.eqb c secondary); try done;
    intros _; cbn zeta;
    destruct (Z.le_gt_cases 0 primary_position);
    destruct (Z.le_gt_cases 0 secondary_position);
    destruct (Z.le_gt_cases primary_position secondary_position);
    rewrite ?Z.geb_leb, ?Z.gtb_ltb;
    repeat (cbn [andb];
            match goal with
            | |- context [(?a <=? ?b)%Z] =>
                first [rewrite (proj2 (Z.leb_le a b)) by lia
                      |rewrite (proj2 (Z.leb_gt a b)) by lia]
            | |- context [(?a <? ?b)%Z] =>
                first [rewrite (proj2 (Z.ltb_lt a b)) by lia
                      |rewrite (proj2 (Z.ltb_ge a b)) by lia]
            end); cbn [andb]; lia.
Qed.

(** A round of the loop on a path that begins with a separator. *)
Lemma iter_components_separator (primary secondary c : ascii) (rest : string) :
  Ascii.eqb c primary || Ascii.eqb c secondary = true →
  _iter_components (S (String.length rest)) primary secondary (String c rest)
  = "" :: _iter_components (String.length rest) primary secondary rest.
Proof.
  intros Hc. rewrite iter_components_step by done.
  rewrite (first_separator_here _ _ _ _ Hc). reflexivity.
Qed.

(** A round of the loop on a path that begins with another character. *)
Lemma iter_components_letter (primary secondary c : ascii) (rest : string) :
  Ascii.eqb c primary || Ascii.eqb c secondary = false →
  _iter_components (S (String.length rest)) primary secondary (String c rest)
  = match _iter_components (String.length rest) primary secondary rest with
    | [] => [String c ""]
    | w :: ws => String c w :: ws
    end.
Proof.
  intros Hc. rewrite iter_components_step by done.
  rewrite (first_separator_later _ _ _ _ Hc).
  destruct rest as [|d r]; [reflexivity|].
  cbn [String.length].
  rewrite (iter_components_step (String.length r) _ _ (String d r)) by done.
  set (k := first_separator primary secondary (String d r)).
  cbn zeta. destruct (Z.leb_spec 0 k) as [Hk|Hk].
  - rewrite (Z.geb_leb (k + 1) 0), (Z.geb_leb k 0).
    destruct (Z.leb_spec 0 (k + 1)); [|lia].
    destruct (Z.leb_spec 0 k); [|lia].
    rewrite (Z.gtb_ltb (k + 1) 0). destruct (Z.ltb_spec 0 (k + 1)); [|lia].
    replace (Z.to_nat (k + 1)) with (S (Z.to_nat k)) by lia.
    replace (Z.to_nat (k + 1 + 1)) with (S (S (Z.to_nat k))) by lia.
    cbn [str_take str_drop String.length]. f_equal.
    + f_equal. rewrite (Z.gtb_ltb k 0). destruct (Z.ltb_spec 0 k); [done|].
      by replace k with 0%Z by lia.
    + destruct (Z.ltb_spec (k + 1) (Z.of_nat (S (S (String.length r)))));
        destruct (Z.ltb_spec k (Z.of_nat (S (String.length r)))); try lia.
      * pose proof (str_drop_length (Z.to_nat k) r).
        apply iter_components_fuel; lia.
      * apply iter_components_fuel; cbn; lia.
  - rewrite (Z.geb_leb (-1) 0), (Z.geb_leb k 0).
    destruct (Z.leb_spec 0 k); [lia|]. reflexivity.
Qed.

Lemma split_either_not_nil (sep1 sep2 : ascii) (s : string) :
  split_either sep1 sep2 s ≠ [].
Proof.
  destruct s as [|c s]; [done|]. cbn.
  destruct (Ascii.eqb c sep1 || Ascii.eqb c sep2); [done|].
  by destruct (split_either sep1 sep2 s).
Qed.

Lemma iter_components_split_either (primary secondary : ascii)
    (path : string) :
  _iter_components (String.length path) primary secondary path
  = drop_empty_last (split_either primary secondary path).
Proof.
  induction path as [|c rest IH]; [done|].
  cbn [String.length split_either].
  pose proof (split_either_not_nil primary secondary rest) as Hne.
  destruct (Ascii.eqb c primary || Ascii.eqb c secondary) eqn:Hc.
  - rewrite (iter_components_separator _ _ _ _ Hc), IH.
    by destruct (split_either primary secondary rest).
  - rewrite (iter_components_letter _ _ _ _ Hc), IH.
    destruct (split_either primary secondary rest) as [|w ws]; [done|].
    destruct ws as [|w' ws].
    + cbn. by destruct (String.eqb_spec w "") as [->|].
    + reflexivity.
Qed.

(** X27: on a platform with two directory separators, the components of
    a path are those of its split at every separator of either kind,
    without the last one when it is empty: unlike the split on a platform
    with one separator, a path that ends in a separator has no empty last
    component, and the empty path has no component at all. *)
Theorem split_path_components_either (P : Platform) (secondary : ascii)
    (path : string) :
  os_altsep P = Some secondary →
  _split_path_components P path
  = drop_empty_last (split_either (os_sep P) secondary path).
Proof.
  intros Halt. unfold _split_path_components. rewrite Halt.
  apply iter_components_split_either.
Qed.

Lemma split_path_components_either_witness :
  _split_path_components example_windows "C:\Program Files/Sublime Text 3/"
  = drop_empty_last
      (split_either (os_sep example_windows) "/"
         "C:\Program Files/Sublime Text 3/").
Proof.
  apply (split_path_components_either example_windows "/"
           "C:\Program Files/Sublime Text 3/").
  reflexivity.
Defined.

(** ** The path that is resolved *)

(** X28: on POSIX, what [resolve_abspath] returns is an absolute path
    exactly when [path] is one, or when the start is one, the start being
    the current directory by default: with a relative start the result is
    relative. *)
Theorem resolve_abspath_absolute (E : Environment) (path : string)
    (start : option string) :
  os_path_isabs posix (resolve_abspath posix E path start)
  = os_path_isabs posix path
    || os_path_isabs posix (default (os_getcwd E) start).
Proof.
  unfold resolve_abspath.
  destruct (os_path_isabs posix path) eqn:Hpath; [by rewrite Hpath|].
  cbn [orb].
  replace (match start with Some start0 => start0 | None => os_getcwd E end)
    with (default (os_getcwd E) start) by (by destruct start).
  generalize (default (os_getcwd E) start). intros s.
  cbn [os_path_join os_path_isabs posix] in *.
  unfold posixpath.join, posixpath.isabs in *. cbn [posixpath.join_loop].
  destruct (startswith s "/") eqn:Hs; [done|].
  destruct path as [|c path]; [done|].
  cbn [String.eqb orb].
  unfold startswith in *. cbn [String.prefix] in Hpath.
  destruct (endswith (String c path) posixpath.sep);
    rewrite !append_cons; cbn [String.prefix];
    (destruct (ascii_dec "/" c); [by destruct path|done]).
Qed.
